(** * ALAP scheduling analysis (qiskit/transpiler/passes/scheduling/scheduling/alap.py)

    A shallow embedding of [ALAPScheduleAnalysis.run] and the properties of
    the backward pass, the final flip of the clock and the precondition
    checks.

    Python integers are unbounded: they are [Z].  Dictionaries are [gmap]s.
    A raised exception is the [Raise] constructor of [result]; the property
    set is threaded explicitly through [run]. *)

From stdpp Require Import gmap strings list fin_maps.
From Stdlib Require Import ZArith Lia.

Local Open Scope Z_scope.

(** ** Exceptions and fallible computations *)

Inductive exn : Type :=
| TranspilerError (msg : string)
| ValueError
| KeyError.

Inductive result (A : Type) : Type :=
| Ok (a : A)
| Raise (e : exn).

Arguments Ok {A} a.
Arguments Raise {A} e.

Definition bind {A B : Type} (r : result A) (k : A -> result B) : result B :=
  match r with
  | Ok a => k a
  | Raise e => Raise e
  end.

Notation "'let*' x ':=' r 'in' k" := (bind r (fun x => k))
  (at level 10, x name, r at level 100, k at level 200).

(** The two messages [run] raises itself. *)
Definition MappingError : exn :=
  TranspilerError "ALAP schedule runs on physical circuits only".
Definition ConfigurationError : exn :=
  TranspilerError "Scheduling cannot run on circuits with stretch durations.".

(** ** Data model *)

(** The keys of [idle_before]: the circuit's qubits and clbits.  A [Qubit]
    and a [Clbit] are different objects even at equal indices. *)
Inductive Bit : Type :=
| Qubit (index : nat)
| Clbit (index : nat).

#[global] Instance Bit_eq_dec : EqDecision Bit.
Proof. solve_decision. Defined.

Definition Bit_to_sum (b : Bit) : nat + nat :=
  match b with Qubit i => inl i | Clbit i => inr i end.
Definition Bit_of_sum (s : nat + nat) : Bit :=
  match s with inl i => Qubit i | inr i => Clbit i end.

#[global] Instance Bit_countable : Countable Bit.
Proof. by apply (inj_countable' Bit_to_sum Bit_of_sum); intros []. Defined.

(** What the [isinstance] tests on [node.op] distinguish:
    [CONDITIONAL_SUPPORTED] (gates and delays), [Measure], and everything
    else (standard instructions and directives such as barriers). *)
Inductive OpKind : Type :=
| Standard
| ConditionSupported
| Measurement
| Directive.

(** An operation node.  [qargs] holds indices of qubits, [cargs] indices of
    clbits; [node_id] is the identity the node is hashed by. *)
Record DAGOpNode : Type := mkNode {
  node_id : nat;
  op : OpKind;
  qargs : list nat;
  cargs : list nat
}.

Record QuantumRegister : Type := mkQReg {
  reg_name : string;
  reg_size : nat
}.

(** The part of a [DAGCircuit] that [run] reads.  [topological_op_nodes] is
    the list the graph walker yields, in forward topological order. *)
Record DAGCircuit : Type := mkDag {
  qregs : gmap string QuantumRegister;
  qubits : list nat;
  clbits : list nat;
  topological_op_nodes : list DAGOpNode
}.

(** The entries of the pass manager's property set that [run] touches; a
    missing key is [None]. *)
Record PropertySet : Type := mkPS {
  time_unit : option string;
  clbit_write_latency : option Z;
  node_start_time : option (gmap nat Z)
}.

Definition set_node_start_time (m : gmap nat Z) (ps : PropertySet) : PropertySet :=
  {| time_unit := time_unit ps;
     clbit_write_latency := clbit_write_latency ps;
     node_start_time := Some m |}.

(** ** The resource timeline *)

Definition qarg_bits (node : DAGOpNode) : list Bit := Qubit <$> qargs node.
Definition carg_bits (node : DAGOpNode) : list Bit := Clbit <$> cargs node.

(** [idle_before[bit] for bit in bits]: a missing key raises [KeyError]. *)
Fixpoint lookup_all (idle_before : gmap Bit Z) (bits : list Bit) : result (list Z) :=
  match bits with
  | [] => Ok []
  | b :: bs =>
      match idle_before !! b with
      | None => Raise KeyError
      | Some v => let* vs := lookup_all idle_before bs in Ok (v :: vs)
      end
  end.

(** Python's [max] over a sequence: [ValueError] on an empty one. *)
Definition py_max (vs : list Z) : result Z :=
  match vs with
  | [] => Raise ValueError
  | v :: vs' => Ok (foldl Z.max v vs')
  end.

Definition max_idle (idle_before : gmap Bit Z) (bits : list Bit) : result Z :=
  let* vs := lookup_all idle_before bits in py_max vs.

(** [for bit in bits: idle_before[bit] = t] *)
Definition advance (bits : list Bit) (t : Z) (idle_before : gmap Bit Z) : gmap Bit Z :=
  foldl (fun m b => <[b := t]> m) idle_before bits.

(** [{q: 0 for q in dag.qubits + dag.clbits}] *)
Definition init_idle (dag : DAGCircuit) : gmap Bit Z :=
  list_to_map ((fun b => (b, 0)) <$> ((Qubit <$> qubits dag) ++ (Clbit <$> clbits dag))).

(** ** The backward pass *)

(** The loop state: [node_start_time] (holding the backward end [t1] of the
    nodes visited so far) and [idle_before]. *)
Definition sched_state : Type := gmap nat Z * gmap Bit Z.

Section Scheduler.

(** [BaseScheduler._get_node_duration], defined in the base class: it
    returns the node's duration or raises. *)
Variable _get_node_duration : DAGOpNode -> DAGCircuit -> result Z.

(** The interval [(t0, t1)] of a node on the reversed clock, and
    [idle_before] after the branch's own writes (the clbit writes of a
    measurement). *)
Definition node_interval (clbit_write_latency : Z) (node : DAGOpNode)
    (op_duration : Z) (idle_before : gmap Bit Z) : result (Z * Z * gmap Bit Z) :=
  match op node with
  | ConditionSupported =>
      let* t0q := max_idle idle_before (qarg_bits node) in
      let t0 := t0q in
      let t1 := t0 + op_duration in
      Ok (t0, t1, idle_before)
  | Measurement =>
      let* t0 := max_idle idle_before (qarg_bits node ++ carg_bits node) in
      let t1 := t0 + op_duration in
      Ok (t0, t1,
          advance (carg_bits node) (t0 + (op_duration - clbit_write_latency)) idle_before)
  | _ =>
      let* t0 := max_idle idle_before (qarg_bits node ++ carg_bits node) in
      let t1 := t0 + op_duration in
      Ok (t0, t1, idle_before)
  end.

(** One iteration of the loop body. *)
Definition schedule_node (dag : DAGCircuit) (clbit_write_latency : Z)
    (st : sched_state) (node : DAGOpNode) : result sched_state :=
  let* op_duration := _get_node_duration node dag in
  let* iv := node_interval clbit_write_latency node op_duration (snd st) in
  let t1 := snd (fst iv) in
  let idle_before := advance (qarg_bits node) t1 (snd iv) in
  Ok (<[node_id node := t1]> (fst st), idle_before).

(** The loop over an already reversed list of nodes. *)
Fixpoint schedule_nodes (dag : DAGCircuit) (clbit_write_latency : Z)
    (nodes : list DAGOpNode) (st : sched_state) : result sched_state :=
  match nodes with
  | [] => Ok st
  | node :: rest =>
      let* st' := schedule_node dag clbit_write_latency st node in
      schedule_nodes dag clbit_write_latency rest st'
  end.

(** [max(idle_before.values())] *)
Definition circuit_duration (idle_before : gmap Bit Z) : result Z :=
  py_max (snd <$> map_to_list idle_before).

(** Everything after the precondition checks: the dictionary that is
    stored under ["node_start_time"]. *)
Definition alap_start_times (dag : DAGCircuit) (clbit_write_latency : Z)
    : result (gmap nat Z) :=
  let* st := schedule_nodes dag clbit_write_latency
               (reverse (topological_op_nodes dag)) (∅, init_idle dag) in
  let* cd := circuit_duration (snd st) in
  Ok ((fun t1 => cd - t1) <$> fst st).

Definition not_physical (dag : DAGCircuit) : bool :=
  negb (size (qregs dag) =? 1)%nat || bool_decide (qregs dag !! "q" = None).

(** [run]: the outcome and the property set after the call. *)
Definition run (dag : DAGCircuit) (property_set : PropertySet)
    : result unit * PropertySet :=
  if not_physical dag then (Raise MappingError, property_set)
  else if bool_decide (time_unit property_set = Some "stretch")
  then (Raise ConfigurationError, property_set)
  else
    let clbit_write_latency := default 0 (clbit_write_latency property_set) in
    match alap_start_times dag clbit_write_latency with
    | Ok m => (Ok tt, set_node_start_time m property_set)
    | Raise e => (Raise e, property_set)
    end.

(** The durations of [nodes] are nonnegative, as the duration oracle
    promises. *)
Definition nonneg_durations (dag : DAGCircuit) (nodes : list DAGOpNode) : Prop :=
  forall node d, node ∈ nodes -> _get_node_duration node dag = Ok d -> 0 <= d.

(** The write latency does not exceed the duration of a measurement. *)
Definition latency_within_measures (dag : DAGCircuit) (clbit_write_latency : Z)
    (nodes : list DAGOpNode) : Prop :=
  forall node d, node ∈ nodes -> op node = Measurement ->
                 _get_node_duration node dag = Ok d -> clbit_write_latency <= d.

End Scheduler.

(** ** Specifications of the timeline *)

(** [t] is the maximum of the clocks of [bits]: it is reached by one of
    them and bounds all of them. *)
Definition is_max_over (idle_before : gmap Bit Z) (bits : list Bit) (t : Z) : Prop :=
  (exists b, b ∈ bits /\ idle_before !! b = Some t) /\
  (forall b, b ∈ bits -> exists v, idle_before !! b = Some v /\ v <= t).

(** The entries of [node_start_time] are bounded by qubit clocks, and the
    qubit clocks are nonnegative; it holds along the traversal when every
    node has a qubit. *)
Definition timeline_inv (st : sched_state) : Prop :=
  (forall q v, snd st !! Qubit q = Some v -> 0 <= v) /\
  (forall id t1, fst st !! id = Some t1 ->
     0 <= t1 /\ exists q v, snd st !! Qubit q = Some v /\ t1 <= v).

(** The bits whose clocks a node reads for its [t0]. *)
Definition read_bits (node : DAGOpNode) : list Bit :=
  match op node with
  | ConditionSupported => qarg_bits node
  | _ => qarg_bits node ++ carg_bits node
  end.

(** The keys [idle_before] starts with. *)
Definition dag_bits (dag : DAGCircuit) : list Bit :=
  (Qubit <$> qubits dag) ++ (Clbit <$> clbits dag).

(** A node that reads at least one bit, and only bits of the circuit. *)
Definition well_formed_node (dag : DAGCircuit) (node : DAGOpNode) : Prop :=
  read_bits node <> [] /\ (forall b, b ∈ read_bits node -> b ∈ dag_bits dag).

(** ** Concrete circuits used in the examples *)

Definition physical_qregs (n : nat) : gmap string QuantumRegister :=
  {[ "q" := mkQReg "q" n ]}.

(** The error of the duration oracle of the examples. *)
Definition DurationUnavailable : exn := TranspilerError "Duration is not found.".

(** The duration oracle of the examples: the duration is found in a table
    indexed by [node_id]; a node outside the table has no duration. *)
Definition table_duration (tbl : list Z) (node : DAGOpNode) (dag : DAGCircuit) : result Z :=
  match tbl !! node_id node with
  | Some d => Ok d
  | None => Raise DurationUnavailable
  end.

Definition ps0 : PropertySet := mkPS (Some "dt") None None.
Definition ps_latency (L : Z) : PropertySet := mkPS (Some "dt") (Some L) None.

(** One measurement of qubit 0 into clbit 0. *)
Definition node_measure : DAGOpNode := mkNode 0 Measurement [0%nat] [0%nat].
Definition dag_measure : DAGCircuit :=
  mkDag (physical_qregs 1) [0%nat] [0%nat] [node_measure].

(** Two gates on qubit 0, [B] (id 0) then [A] (id 1). *)
Definition node_B : DAGOpNode := mkNode 0 ConditionSupported [0%nat] [].
Definition node_A : DAGOpNode := mkNode 1 ConditionSupported [0%nat] [].
Definition dag_two_gates : DAGCircuit :=
  mkDag (physical_qregs 1) [0%nat] [] [node_B; node_A].
Definition st_two_gates : sched_state :=
  (<[ 0%nat := 8 ]> {[ 1%nat := 3 ]}, {[ Qubit 0 := 8 ]}).
Definition start_two_gates : gmap nat Z := <[ 1%nat := 5 ]> {[ 0%nat := 0 ]}.

(** A standard instruction on qubit 0 and clbit 0. *)
Definition node_std : DAGOpNode := mkNode 0 Standard [0%nat] [0%nat].
Definition dag_std : DAGCircuit :=
  mkDag (physical_qregs 1) [0%nat] [0%nat] [node_std].


(** Two gates on qubit 0; the table of the examples has no duration for the
    first of them (id 1). *)
Definition node_unknown : DAGOpNode := mkNode 1 ConditionSupported [0%nat] [].
Definition node_known : DAGOpNode := mkNode 0 ConditionSupported [0%nat] [].
Definition dag_unknown_duration : DAGCircuit :=
  mkDag (physical_qregs 1) [0%nat] [] [node_unknown; node_known].
Definition st_known : sched_state := ({[ 0%nat := 3 ]}, {[ Qubit 0 := 3 ]}).

Definition dag_reg_r : DAGCircuit :=
  mkDag {[ "r" := mkQReg "r" 1 ]} [0%nat] [] [node_B].


(** The states of the examples: the initial one of a circuit with qubit 0
    and clbit 0, and the ones reached from it by a node of duration 5 that
    is not a measurement, by a measurement of duration 10 with latency 4,
    and by a measurement of duration 1 with latency 5. *)
Definition idle_0 : gmap Bit Z := <[Clbit 0 := 0]> {[ Qubit 0 := 0 ]}.
Definition st_0 : sched_state := (∅, idle_0).
Definition st_std : sched_state :=
  ({[ 0%nat := 5 ]}, <[Qubit 0 := 5]> idle_0).
Definition st_measure : sched_state :=
  ({[ 0%nat := 10 ]}, <[Qubit 0 := 10]> (<[Clbit 0 := 6]> idle_0)).
Definition st_early_write : sched_state :=
  ({[ 0%nat := 1 ]}, <[Qubit 0 := 1]> (<[Clbit 0 := -4]> idle_0)).

(** ** Further circuits *)

(** The sum of a list of durations. *)
Definition total_duration (ds : list Z) : Z := foldr Z.add 0 ds.

(** [node] acts on the qubit [q] alone and has the nonnegative duration
    [d]. *)
Definition on_qubit_with_duration (oracle : DAGOpNode -> DAGCircuit -> result Z)
    (dag : DAGCircuit) (q : nat) (node : DAGOpNode) (d : Z) : Prop :=
  oracle node dag = Ok d /\ 0 <= d /\ qargs node = [q] /\ cargs node = [].

(** The clock value [v] of the bit [b] was written by a node of [visited]:
    a node on the qubit [b], whose recorded [t1] is [v], or a measurement
    into the clbit [b], whose recorded [t1] is [v] plus the write
    latency. *)
Definition written_by (clbit_write_latency : Z) (st : sched_state)
    (visited : list DAGOpNode) (b : Bit) (v : Z) : Prop :=
  exists N t1,
    N ∈ visited /\ fst st !! node_id N = Some t1 /\
    ((exists q, b = Qubit q /\ q ∈ qargs N /\ v = t1) \/
     (exists c, b = Clbit c /\ op N = Measurement /\ c ∈ cargs N /\
                v = t1 - clbit_write_latency)).

(** Every clock is still at its initial value [0] or was written by a
    visited node. *)
Definition clocks_explained (clbit_write_latency : Z) (visited : list DAGOpNode)
    (st : sched_state) : Prop :=
  forall b v, snd st !! b = Some v ->
              v = 0 \/ written_by clbit_write_latency st visited b v.

(** A gate without qubits, and a gate on qubit 7 of a circuit whose only
    qubit is qubit 0. *)
Definition node_no_bits : DAGOpNode := mkNode 0 ConditionSupported [] [0%nat].
Definition dag_node_no_bits : DAGCircuit :=
  mkDag (physical_qregs 1) [0%nat] [0%nat] [node_no_bits].
Definition node_foreign : DAGOpNode := mkNode 0 ConditionSupported [0%nat; 7%nat] [].
Definition dag_foreign_bit : DAGCircuit :=
  mkDag (physical_qregs 1) [0%nat] [] [node_foreign].

(** A circuit without nodes, and a circuit without bits. *)
Definition dag_no_nodes : DAGCircuit :=
  mkDag (physical_qregs 1) [0%nat] [] [].
Definition dag_no_bits : DAGCircuit :=
  mkDag (physical_qregs 0) [] [] [].

(** Two measurements into clbit 0, of qubit 0 (id 0) and then of qubit 1
    (id 1). *)
Definition node_M0 : DAGOpNode := mkNode 0 Measurement [0%nat] [0%nat].
Definition node_M1 : DAGOpNode := mkNode 1 Measurement [1%nat] [0%nat].
Definition dag_two_measures : DAGCircuit :=
  mkDag (physical_qregs 2) [0%nat; 1%nat] [0%nat] [node_M0; node_M1].
Definition start_two_measures : gmap nat Z := <[ 1%nat := 6 ]> {[ 0%nat := 0 ]}.

(** * Properties *)

Ltac eval_eq := vm_compute; reflexivity.

Ltac in_list H :=
  repeat (apply elem_of_cons in H as [->|H]); try (by apply elem_of_nil in H).

Ltac nonneg_table :=
  let node := fresh "node" in
  let d := fresh "d" in
  let Hin := fresh "Hin" in
  let Hd := fresh "Hd" in
  intros node d Hin Hd; in_list Hin;
  vm_compute in Hd; injection Hd as <-; lia.

Example scenario_1 :
  run (table_duration [10]) dag_measure (ps_latency 4)
  = (Ok tt, set_node_start_time {[ 0%nat := 0 ]} (ps_latency 4)).
Proof. vm_compute. reflexivity. Qed.

Example scenario_2 :
  run (table_duration [5; 3]) dag_two_gates ps0
  = (Ok tt, set_node_start_time (<[ 1%nat := 5 ]> {[ 0%nat := 0 ]}) ps0).
Proof. vm_compute. reflexivity. Qed.

(** ** Specifications of the timeline operations *)


Lemma foldl_max_ge (vs : list Z) (v : Z) : v <= foldl Z.max v vs.
Proof.
  revert v. induction vs as [|w vs IH]; intros v; simpl; [lia|].
  specialize (IH (Z.max v w)). lia.
Qed.

Lemma foldl_max_bound (vs : list Z) (v w : Z) :
  w ∈ vs -> w <= foldl Z.max v vs.
Proof.
  revert v. induction vs as [|u vs IH]; intros v Hin; simpl.
  - by apply elem_of_nil in Hin.
  - apply elem_of_cons in Hin as [->|Hin].
    + pose proof (foldl_max_ge vs (Z.max v u)). lia.
    + by apply IH.
Qed.

Lemma foldl_max_reached (vs : list Z) (v : Z) :
  foldl Z.max v vs = v \/ foldl Z.max v vs ∈ vs.
Proof.
  revert v. induction vs as [|u vs IH]; intros v; simpl; [by left|].
  destruct (IH (Z.max v u)) as [Heq|Hin].
  - rewrite Heq. destruct (Z.max_spec v u) as [[_ ->]|[_ ->]].
    + right. apply elem_of_cons. by left.
    + by left.
  - right. apply elem_of_cons. by right.
Qed.

Lemma py_max_Ok (vs : list Z) (m : Z) :
  py_max vs = Ok m -> m ∈ vs /\ (forall v, v ∈ vs -> v <= m).
Proof.
  destruct vs as [|v vs]; simpl; [discriminate|].
  intros [= <-]. split.
  - destruct (foldl_max_reached vs v) as [->|Hin]; apply elem_of_cons; auto.
  - intros w [->|Hin]%elem_of_cons.
    + apply foldl_max_ge.
    + by apply foldl_max_bound.
Qed.

Lemma py_max_nonempty (vs : list Z) :
  vs <> [] -> exists m, py_max vs = Ok m.
Proof. destruct vs; [done|]. simpl. eauto. Qed.

Lemma bind_Ok {A B : Type} (r : result A) (k : A -> result B) (b : B) :
  bind r k = Ok b -> exists a, r = Ok a /\ k a = Ok b.
Proof. destruct r; simpl; [eauto|discriminate]. Qed.

Lemma lookup_all_Ok (idle_before : gmap Bit Z) (bits : list Bit) (vs : list Z) :
  lookup_all idle_before bits = Ok vs ->
  Forall2 (fun b v => idle_before !! b = Some v) bits vs.
Proof.
  revert vs. induction bits as [|b bits IH]; intros vs; simpl.
  - intros [= <-]. constructor.
  - destruct (idle_before !! b) as [v|] eqn:Hb; [|discriminate].
    intros (ws & Hws & [= <-])%bind_Ok. constructor; auto.
Qed.

Lemma lookup_all_ext (idle1 idle2 : gmap Bit Z) (bits : list Bit) :
  (forall b, b ∈ bits -> idle1 !! b = idle2 !! b) ->
  lookup_all idle1 bits = lookup_all idle2 bits.
Proof.
  induction bits as [|b bits IH]; intros Hext; simpl; [done|].
  rewrite (Hext b) by (apply elem_of_cons; auto).
  rewrite IH; [done|]. intros b' Hb'. apply Hext, elem_of_cons. auto.
Qed.

Lemma max_idle_ext (idle1 idle2 : gmap Bit Z) (bits : list Bit) :
  (forall b, b ∈ bits -> idle1 !! b = idle2 !! b) ->
  max_idle idle1 bits = max_idle idle2 bits.
Proof. intros Hext. unfold max_idle. by rewrite (lookup_all_ext idle1 idle2). Qed.

Lemma max_idle_Ok (idle_before : gmap Bit Z) (bits : list Bit) (t : Z) :
  max_idle idle_before bits = Ok t -> is_max_over idle_before bits t.
Proof.
  unfold max_idle. intros (vs & Hvs & Hmax)%bind_Ok.
  apply lookup_all_Ok in Hvs. apply py_max_Ok in Hmax as [Hin Hub].
  split.
  - apply list_elem_of_lookup in Hin as [i Hi].
    destruct (Forall2_lookup_r _ _ _ _ _ Hvs Hi) as (b & Hb & Hlk).
    exists b. split; [|done]. apply list_elem_of_lookup. eauto.
  - intros b [i Hi]%list_elem_of_lookup.
    destruct (Forall2_lookup_l _ _ _ _ _ Hvs Hi) as (v & Hv & Hlk).
    exists v. split; [done|]. apply Hub, list_elem_of_lookup. eauto.
Qed.

(** The maximum is unique, so [is_max_over] determines [t0]. *)
Lemma is_max_over_unique (idle_before : gmap Bit Z) (bits : list Bit) (t t' : Z) :
  is_max_over idle_before bits t -> is_max_over idle_before bits t' -> t = t'.
Proof.
  intros [(b & Hb & Hlk) Hub] [(b' & Hb' & Hlk') Hub'].
  destruct (Hub b' Hb') as (v & Hv & Hle).
  destruct (Hub' b Hb) as (v' & Hv' & Hle').
  simplify_eq. lia.
Qed.

Lemma advance_lookup_in (bits : list Bit) (t : Z) (m : gmap Bit Z) (b : Bit) :
  b ∈ bits -> advance bits t m !! b = Some t.
Proof.
  unfold advance. revert m. induction bits as [|b' bits IH]; intros m Hin; simpl.
  - by apply elem_of_nil in Hin.
  - destruct (decide (b ∈ bits)) as [Hb|Hb]; [by apply IH|].
    apply elem_of_cons in Hin as [->|Hin]; [|done].
    clear IH. revert m. induction bits as [|c bits IH]; intros m; simpl.
    + apply lookup_insert_eq.
    + apply not_elem_of_cons in Hb as [Hne Hb].
      rewrite insert_insert_ne by done. by apply IH.
Qed.

Lemma advance_lookup_notin (bits : list Bit) (t : Z) (m : gmap Bit Z) (b : Bit) :
  b ∉ bits -> advance bits t m !! b = m !! b.
Proof.
  unfold advance. revert m. induction bits as [|b' bits IH]; intros m Hin; simpl; [done|].
  apply not_elem_of_cons in Hin as [Hne Hin].
  rewrite IH by done. by apply lookup_insert_ne.
Qed.

Lemma Qubit_elem_of_qarg_bits (node : DAGOpNode) (q : nat) :
  Qubit q ∈ qarg_bits node <-> q ∈ qargs node.
Proof.
  unfold qarg_bits. rewrite list_elem_of_fmap. split.
  - by intros (q' & [= ->] & Hq).
  - eauto.
Qed.

Lemma Clbit_elem_of_carg_bits (node : DAGOpNode) (c : nat) :
  Clbit c ∈ carg_bits node <-> c ∈ cargs node.
Proof.
  unfold carg_bits. rewrite list_elem_of_fmap. split.
  - by intros (c' & [= ->] & Hc).
  - eauto.
Qed.

Lemma Clbit_not_in_qarg_bits (node : DAGOpNode) (c : nat) : Clbit c ∉ qarg_bits node.
Proof. unfold qarg_bits. rewrite list_elem_of_fmap. by intros (q & [=] & _). Qed.

Lemma Qubit_not_in_carg_bits (node : DAGOpNode) (q : nat) : Qubit q ∉ carg_bits node.
Proof. unfold carg_bits. rewrite list_elem_of_fmap. by intros (c & [=] & _). Qed.

(** ** One iteration of the backward pass *)

Section NodePolicy.

Variable oracle : DAGOpNode -> DAGCircuit -> result Z.
Variable dag : DAGCircuit.
Variable latency : Z.

Lemma node_interval_t1 (node : DAGOpNode) (d t0 t1 : Z) (idle idle1 : gmap Bit Z) :
  node_interval latency node d idle = Ok (t0, t1, idle1) -> t1 = t0 + d.
Proof.
  unfold node_interval.
  destruct (op node); intros (t & _ & [= <- <- _])%bind_Ok; done.
Qed.

Lemma schedule_node_Ok (st st' : sched_state) (node : DAGOpNode) :
  schedule_node oracle dag latency st node = Ok st' ->
  exists d t0 idle1,
    oracle node dag = Ok d /\
    node_interval latency node d (snd st) = Ok (t0, t0 + d, idle1) /\
    st' = (<[node_id node := t0 + d]> (fst st),
           advance (qarg_bits node) (t0 + d) idle1).
Proof.
  unfold schedule_node.
  intros (d & Hd & ([[t0 t1] idle1] & Hiv & [= <-])%bind_Ok)%bind_Ok.
  pose proof (node_interval_t1 _ _ _ _ _ _ Hiv) as ->.
  exists d, t0, idle1. done.
Qed.

(** The three rows of the policy, as [node_interval] computes them. *)
Lemma node_interval_conditional (node : DAGOpNode) (d t0 t1 : Z)
    (idle idle1 : gmap Bit Z) :
  op node = ConditionSupported ->
  node_interval latency node d idle = Ok (t0, t1, idle1) ->
  max_idle idle (qarg_bits node) = Ok t0 /\ idle1 = idle.
Proof.
  unfold node_interval. intros ->.
  intros (t & Ht & [= <- _ <-])%bind_Ok. done.
Qed.

Lemma node_interval_measure (node : DAGOpNode) (d t0 t1 : Z)
    (idle idle1 : gmap Bit Z) :
  op node = Measurement ->
  node_interval latency node d idle = Ok (t0, t1, idle1) ->
  max_idle idle (qarg_bits node ++ carg_bits node) = Ok t0 /\
  idle1 = advance (carg_bits node) (t0 + (d - latency)) idle.
Proof.
  unfold node_interval. intros ->.
  intros (t & Ht & [= <- _ <-])%bind_Ok. done.
Qed.

Lemma node_interval_default (node : DAGOpNode) (d t0 t1 : Z)
    (idle idle1 : gmap Bit Z) :
  op node = Standard \/ op node = Directive ->
  node_interval latency node d idle = Ok (t0, t1, idle1) ->
  max_idle idle (qarg_bits node ++ carg_bits node) = Ok t0 /\ idle1 = idle.
Proof.
  unfold node_interval.
  intros [-> | ->]; intros (t & Ht & [= <- _ <-])%bind_Ok; done.
Qed.

(** C1 (as amended): a Standard or Directive node takes [t0] as the
    maximum of [idle_before] over its qubits and clbits, records
    [t1 = t0 + d], sets the clock of each of its qubits to [t1], and
    leaves every clbit clock, those of its own clbits included, as it
    was. *)
Theorem C1_default_updates_primary_only
    (nst : gmap nat Z) (idle : gmap Bit Z) (node : DAGOpNode) (st' : sched_state) :
  op node = Standard \/ op node = Directive ->
  schedule_node oracle dag latency (nst, idle) node = Ok st' ->
  exists d t0,
    oracle node dag = Ok d /\
    is_max_over idle (qarg_bits node ++ carg_bits node) t0 /\
    fst st' = <[node_id node := t0 + d]> nst /\
    (forall q, q ∈ qargs node -> snd st' !! Qubit q = Some (t0 + d)) /\
    (forall q, q ∉ qargs node -> snd st' !! Qubit q = idle !! Qubit q) /\
    (forall c, snd st' !! Clbit c = idle !! Clbit c).
Proof.
  intros Hop (d & t0 & idle1 & Hd & Hiv & ->)%schedule_node_Ok.
  simpl in Hiv. apply node_interval_default in Hiv as [Ht0 ->]; [|done].
  exists d, t0. split_and!; simpl; [done|by apply max_idle_Ok|done|..].
  - intros q Hq. by apply advance_lookup_in, Qubit_elem_of_qarg_bits.
  - intros q Hq. apply advance_lookup_notin. by rewrite Qubit_elem_of_qarg_bits.
  - intros c. apply advance_lookup_notin, Clbit_not_in_qarg_bits.
Qed.

(** C2: a Measurement node takes [t0] as the maximum of [idle_before]
    over its qubits and clbits, records [t1 = t0 + d], sets the clock of
    each of its clbits to [t0 + (d - clbit_write_latency)] and the clock
    of each of its qubits to [t1]. *)
Theorem C2_measurement_policy
    (nst : gmap nat Z) (idle : gmap Bit Z) (node : DAGOpNode) (st' : sched_state) :
  op node = Measurement ->
  schedule_node oracle dag latency (nst, idle) node = Ok st' ->
  exists d t0,
    oracle node dag = Ok d /\
    is_max_over idle (qarg_bits node ++ carg_bits node) t0 /\
    fst st' = <[node_id node := t0 + d]> nst /\
    (forall c, c ∈ cargs node -> snd st' !! Clbit c = Some (t0 + (d - latency))) /\
    (forall q, q ∈ qargs node -> snd st' !! Qubit q = Some (t0 + d)) /\
    (forall q, q ∉ qargs node -> snd st' !! Qubit q = idle !! Qubit q) /\
    (forall c, c ∉ cargs node -> snd st' !! Clbit c = idle !! Clbit c).
Proof.
  intros Hop (d & t0 & idle1 & Hd & Hiv & ->)%schedule_node_Ok.
  simpl in Hiv. apply node_interval_measure in Hiv as [Ht0 ->]; [|done].
  exists d, t0. split_and!; simpl; [done|by apply max_idle_Ok|done|..].
  - intros c Hc. rewrite advance_lookup_notin by apply Clbit_not_in_qarg_bits.
    by apply advance_lookup_in, Clbit_elem_of_carg_bits.
  - intros q Hq. by apply advance_lookup_in, Qubit_elem_of_qarg_bits.
  - intros q Hq. rewrite advance_lookup_notin by (by rewrite Qubit_elem_of_qarg_bits).
    apply advance_lookup_notin, Qubit_not_in_carg_bits.
  - intros c Hc. rewrite advance_lookup_notin by apply Clbit_not_in_qarg_bits.
    apply advance_lookup_notin. by rewrite Clbit_elem_of_carg_bits.
Qed.

(** C3: a ConditionSupported node takes [t0] as the maximum of
    [idle_before] over its qubits only, records [t1 = t0 + d] and sets the
    clock of each of its qubits to [t1].  No clbit clock is written, and
    none is read: with any other clbit clocks (even missing ones) the node
    gets the same [t1] and the same qubit clocks. *)
Theorem C3_condition_supported_policy
    (nst : gmap nat Z) (idle : gmap Bit Z) (node : DAGOpNode) (st' : sched_state) :
  op node = ConditionSupported ->
  schedule_node oracle dag latency (nst, idle) node = Ok st' ->
  exists d t0,
    oracle node dag = Ok d /\
    is_max_over idle (qarg_bits node) t0 /\
    fst st' = <[node_id node := t0 + d]> nst /\
    (forall q, q ∈ qargs node -> snd st' !! Qubit q = Some (t0 + d)) /\
    (forall q, q ∉ qargs node -> snd st' !! Qubit q = idle !! Qubit q) /\
    (forall c, snd st' !! Clbit c = idle !! Clbit c) /\
    (forall idle2 : gmap Bit Z,
        (forall q, idle2 !! Qubit q = idle !! Qubit q) ->
        exists idle2',
          schedule_node oracle dag latency (nst, idle2) node = Ok (fst st', idle2') /\
          (forall q, idle2' !! Qubit q = snd st' !! Qubit q) /\
          (forall c, idle2' !! Clbit c = idle2 !! Clbit c)).
Proof.
  intros Hop (d & t0 & idle1 & Hd & Hiv & ->)%schedule_node_Ok.
  simpl in Hiv. apply node_interval_conditional in Hiv as [Ht0 ->]; [|done].
  exists d, t0. split_and!; simpl; [done|by apply max_idle_Ok|done|..].
  - intros q Hq. by apply advance_lookup_in, Qubit_elem_of_qarg_bits.
  - intros q Hq. apply advance_lookup_notin. by rewrite Qubit_elem_of_qarg_bits.
  - intros c. apply advance_lookup_notin, Clbit_not_in_qarg_bits.
  - intros idle2 Hagree.
    exists (advance (qarg_bits node) (t0 + d) idle2). split_and!.
    + unfold schedule_node, node_interval. rewrite Hd, Hop. simpl.
      rewrite (max_idle_ext idle2 idle), Ht0; [done|].
      intros b (q & -> & _)%list_elem_of_fmap. apply Hagree.
    + intros q. destruct (decide (q ∈ qargs node)) as [Hq|Hq].
      * rewrite !advance_lookup_in by (by apply Qubit_elem_of_qarg_bits). done.
      * rewrite !advance_lookup_notin by (by rewrite Qubit_elem_of_qarg_bits).
        apply Hagree.
    + intros c. apply advance_lookup_notin, Clbit_not_in_qarg_bits.
Qed.

End NodePolicy.

(** ** The traversal *)

Section Traversal.

Variable oracle : DAGOpNode -> DAGCircuit -> result Z.
Variable dag : DAGCircuit.
Variable latency : Z.

(** What one iteration does to the state, whatever the kind of the node:
    the clbit clocks are only written by a measurement, to
    [t0 + (d - latency)]. *)
Lemma schedule_node_inv (st st' : sched_state) (node : DAGOpNode) :
  schedule_node oracle dag latency st node = Ok st' ->
  exists d t0,
    oracle node dag = Ok d /\
    fst st' = <[node_id node := t0 + d]> (fst st) /\
    (forall q, q ∈ qargs node ->
       snd st' !! Qubit q = Some (t0 + d) /\
       exists v, snd st !! Qubit q = Some v /\ v <= t0) /\
    (forall q, q ∉ qargs node -> snd st' !! Qubit q = snd st !! Qubit q) /\
    (forall c, snd st' !! Clbit c = snd st !! Clbit c \/
       (op node = Measurement /\ c ∈ cargs node /\
        snd st' !! Clbit c = Some (t0 + (d - latency)) /\
        exists v, snd st !! Clbit c = Some v /\ v <= t0)) /\
    (exists b, snd st !! b = Some t0).
Proof.
  intros (d & t0 & idle1 & Hd & Hiv & ->)%schedule_node_Ok.
  exists d, t0. simpl.
  assert (Hmax : exists bits, is_max_over (snd st) bits t0 /\
                   (forall q, q ∈ qargs node -> Qubit q ∈ bits) /\
                   (op node = Measurement -> forall c, c ∈ cargs node -> Clbit c ∈ bits)).
  { destruct (op node) eqn:Hop.
    - apply node_interval_default in Hiv as [Ht0 _]; [|auto].
      exists (qarg_bits node ++ carg_bits node). split_and!; [by apply max_idle_Ok|..].
      + intros q Hq. apply elem_of_app. left. by apply Qubit_elem_of_qarg_bits.
      + done.
    - apply node_interval_conditional in Hiv as [Ht0 _]; [|auto].
      exists (qarg_bits node). split_and!; [by apply max_idle_Ok|..].
      + intros q Hq. by apply Qubit_elem_of_qarg_bits.
      + done.
    - apply node_interval_measure in Hiv as [Ht0 _]; [|auto].
      exists (qarg_bits node ++ carg_bits node). split_and!; [by apply max_idle_Ok|..].
      + intros q Hq. apply elem_of_app. left. by apply Qubit_elem_of_qarg_bits.
      + intros _ c Hc. apply elem_of_app. right. by apply Clbit_elem_of_carg_bits.
    - apply node_interval_default in Hiv as [Ht0 _]; [|auto].
      exists (qarg_bits node ++ carg_bits node). split_and!; [by apply max_idle_Ok|..].
      + intros q Hq. apply elem_of_app. left. by apply Qubit_elem_of_qarg_bits.
      + done. }
  destruct Hmax as (bits & [(b0 & _ & Hb0) Hub] & Hqs & Hcs).
  assert (Hq1 : forall q, idle1 !! Qubit q = snd st !! Qubit q).
  { intros q. destruct (op node) eqn:Hop.
    - apply node_interval_default in Hiv as [_ ->]; auto.
    - apply node_interval_conditional in Hiv as [_ ->]; auto.
    - apply node_interval_measure in Hiv as [_ ->]; [|auto].
      apply advance_lookup_notin, Qubit_not_in_carg_bits.
    - apply node_interval_default in Hiv as [_ ->]; auto. }
  split_and!; [done|done|..].
  - intros q Hq. split.
    + by apply advance_lookup_in, Qubit_elem_of_qarg_bits.
    + apply Hub, Hqs, Hq.
  - intros q Hq. rewrite advance_lookup_notin by (by rewrite Qubit_elem_of_qarg_bits).
    apply Hq1.
  - intros c. rewrite advance_lookup_notin by apply Clbit_not_in_qarg_bits.
    destruct (op node) eqn:Hop.
    + apply node_interval_default in Hiv as [_ ->]; auto.
    + apply node_interval_conditional in Hiv as [_ ->]; auto.
    + apply node_interval_measure in Hiv as [_ ->]; [|auto].
      destruct (decide (c ∈ cargs node)) as [Hc|Hc].
      * right. split_and!; [done|done|..].
        -- by apply advance_lookup_in, Clbit_elem_of_carg_bits.
        -- apply Hub, Hcs; done.
      * left. apply advance_lookup_notin. by rewrite Clbit_elem_of_carg_bits.
    + apply node_interval_default in Hiv as [_ ->]; auto.
  - eauto.
Qed.

Lemma schedule_nodes_app (l1 l2 : list DAGOpNode) (st st' : sched_state) :
  schedule_nodes oracle dag latency (l1 ++ l2) st = Ok st' <->
  exists st1, schedule_nodes oracle dag latency l1 st = Ok st1 /\
              schedule_nodes oracle dag latency l2 st1 = Ok st'.
Proof.
  revert st. induction l1 as [|n l1 IH]; intros st; simpl.
  - split; [eauto|]. by intros (st1 & [= <-] & H).
  - destruct (schedule_node oracle dag latency st n) as [st1|e]; simpl.
    + apply IH.
    + split; [discriminate|]. by intros (? & [=] & _).
Qed.

(** A node that is not visited keeps its entry of [node_start_time]. *)
Lemma schedule_nodes_other_id (nodes : list DAGOpNode) (st st' : sched_state) (id : nat) :
  schedule_nodes oracle dag latency nodes st = Ok st' ->
  id ∉ node_id <$> nodes ->
  fst st' !! id = fst st !! id.
Proof.
  revert st. induction nodes as [|n nodes IH]; intros st; simpl.
  - by intros [= <-].
  - intros (st1 & Hstep & Hrest)%bind_Ok [Hne Hnotin]%not_elem_of_cons.
    rewrite (IH _ Hrest Hnotin).
    apply schedule_node_inv in Hstep as (d & t0 & _ & -> & _).
    by apply lookup_insert_ne.
Qed.

(** Every visited node has an entry of [node_start_time]. *)
Lemma schedule_nodes_visited (nodes : list DAGOpNode) (st st' : sched_state)
    (node : DAGOpNode) :
  schedule_nodes oracle dag latency nodes st = Ok st' ->
  node ∈ nodes ->
  is_Some (fst st' !! node_id node).
Proof.
  intros Hrun Hin.
  assert (Hid : node_id node ∈ node_id <$> nodes) by (apply list_elem_of_fmap; eauto).
  clear Hin. revert st Hrun Hid. generalize (node_id node) as id.
  induction nodes as [|n nodes IH]; intros id st; simpl.
  - intros _ Hin. by apply elem_of_nil in Hin.
  - intros (st1 & Hstep & Hrest)%bind_Ok Hin.
    destruct (decide (id ∈ node_id <$> nodes)) as [Hid|Hid]; [by eapply IH|].
    apply elem_of_cons in Hin as [->|Hin]; [|done].
    rewrite (schedule_nodes_other_id _ _ _ _ Hrest Hid).
    apply schedule_node_inv in Hstep as (d & t0 & _ & -> & _).
    rewrite lookup_insert_eq. eauto.
Qed.

(** ** Monotone clocks *)


Lemma schedule_node_qubit_mono (st st' : sched_state) (node : DAGOpNode) (q : nat) (v : Z) :
  nonneg_durations oracle dag [node] ->
  schedule_node oracle dag latency st node = Ok st' ->
  snd st !! Qubit q = Some v ->
  exists v', snd st' !! Qubit q = Some v' /\ v <= v'.
Proof.
  intros Hd (d & t0 & Ho & _ & Hin & Hout & _)%schedule_node_inv Hv.
  assert (0 <= d) by (eapply Hd; [apply list_elem_of_singleton|]; done).
  destruct (decide (q ∈ qargs node)) as [Hq|Hq].
  - destruct (Hin q Hq) as (-> & v0 & Hv0 & Hle). simplify_eq.
    eexists; split; [done|lia].
  - rewrite (Hout q Hq). eexists; split; [done|lia].
Qed.

Lemma nonneg_durations_cons (n : DAGOpNode) (nodes : list DAGOpNode) :
  nonneg_durations oracle dag (n :: nodes) ->
  nonneg_durations oracle dag [n] /\ nonneg_durations oracle dag nodes.
Proof.
  intros H. split; intros node d Hin; apply H.
  - apply list_elem_of_singleton in Hin as ->. apply elem_of_cons. auto.
  - apply elem_of_cons. auto.
Qed.

Lemma schedule_nodes_qubit_mono (nodes : list DAGOpNode) (st st' : sched_state)
    (q : nat) (v : Z) :
  nonneg_durations oracle dag nodes ->
  schedule_nodes oracle dag latency nodes st = Ok st' ->
  snd st !! Qubit q = Some v ->
  exists v', snd st' !! Qubit q = Some v' /\ v <= v'.
Proof.
  revert st v. induction nodes as [|n nodes IH]; intros st v Hd; simpl.
  - intros [= <-] Hv. eexists; split; [done|lia].
  - apply nonneg_durations_cons in Hd as [Hd1 Hd2].
    intros (st1 & Hstep & Hrest)%bind_Ok Hv.
    destruct (schedule_node_qubit_mono _ _ _ _ _ Hd1 Hstep Hv) as (v1 & Hv1 & Hle1).
    destruct (IH _ _ Hd2 Hrest Hv1) as (v' & Hv' & Hle').
    exists v'. split; [done|lia].
Qed.

End Traversal.

(** ** Results of the whole pass *)

Section Results.

Variable oracle : DAGOpNode -> DAGCircuit -> result Z.
Variable dag : DAGCircuit.

Lemma init_idle_zero (b : Bit) (v : Z) : init_idle dag !! b = Some v -> v = 0.
Proof.
  unfold init_idle. intros Hin%elem_of_list_to_map_2.
  apply list_elem_of_fmap in Hin as (b' & [= _ ->] & _). done.
Qed.

Lemma circuit_duration_Ok (idle : gmap Bit Z) (cd : Z) :
  circuit_duration idle = Ok cd ->
  (exists b, idle !! b = Some cd) /\ (forall b v, idle !! b = Some v -> v <= cd).
Proof.
  unfold circuit_duration. intros [Hin Hub]%py_max_Ok. split.
  - apply list_elem_of_fmap in Hin as ([b v] & -> & Hbv).
    exists b. by apply elem_of_map_to_list.
  - intros b v Hbv. apply Hub, list_elem_of_fmap.
    exists (b, v). split; [done|]. by apply elem_of_map_to_list.
Qed.

(** What a successful [run] has computed and stored. *)
Lemma run_Ok (ps ps' : PropertySet) :
  run oracle dag ps = (Ok tt, ps') ->
  not_physical dag = false /\
  time_unit ps <> Some "stretch" /\
  exists st cd,
    schedule_nodes oracle dag (default 0 (clbit_write_latency ps))
      (reverse (topological_op_nodes dag)) (∅, init_idle dag) = Ok st /\
    circuit_duration (snd st) = Ok cd /\
    ps' = set_node_start_time ((fun t1 => cd - t1) <$> fst st) ps.
Proof.
  unfold run. destruct (not_physical dag); [discriminate|].
  case_bool_decide as Hstretch; [discriminate|].
  destruct (alap_start_times _ _ _) as [m|e] eqn:Halap; [|discriminate].
  intros [= <-]. split_and!; [done|done|].
  unfold alap_start_times in Halap.
  apply bind_Ok in Halap as (st & Hst & (cd & Hcd & [= <-])%bind_Ok).
  exists st, cd. done.
Qed.

(** Whatever [run] raises, the property set is the one it was given. *)
Lemma run_Raise (ps ps' : PropertySet) (e : exn) :
  run oracle dag ps = (Raise e, ps') -> ps' = ps.
Proof.
  unfold run. destruct (not_physical dag); [by intros [= _ <-]|].
  case_bool_decide; [by intros [= _ <-]|].
  destruct (alap_start_times _ _ _); [discriminate|by intros [= _ <-]].
Qed.

Lemma schedule_node_mono (latency : Z) (st st' : sched_state) (node : DAGOpNode)
    (b : Bit) (v : Z) :
  nonneg_durations oracle dag [node] ->
  latency_within_measures oracle dag latency [node] ->
  schedule_node oracle dag latency st node = Ok st' ->
  snd st !! b = Some v ->
  exists v', snd st' !! b = Some v' /\ v <= v'.
Proof.
  intros Hd HL Hstep Hv. destruct b as [q|c].
  - by eapply schedule_node_qubit_mono.
  - apply schedule_node_inv in Hstep as (d & t0 & Ho & _ & _ & _ & Hc & _).
    destruct (Hc c) as [->|(Hop & _ & -> & v0 & Hv0 & Hle)].
    + eexists; split; [done|lia].
    + assert (latency <= d) by (eapply HL; [apply list_elem_of_singleton|..]; done).
      simplify_eq. eexists; split; [done|lia].
Qed.

(** C6 (as amended): when the durations are nonnegative and the write
    latency does not exceed the duration of any measurement, every clock
    of [idle_before] is non-decreasing along the traversal: after any
    number of iterations each clock is at least what it was before
    them. *)
Theorem C6_idle_before_monotone
    (latency : Z) (nodes : list DAGOpNode) (st st' : sched_state) (b : Bit) (v : Z) :
  nonneg_durations oracle dag nodes ->
  latency_within_measures oracle dag latency nodes ->
  schedule_nodes oracle dag latency nodes st = Ok st' ->
  snd st !! b = Some v ->
  exists v', snd st' !! b = Some v' /\ v <= v'.
Proof.
  revert st v. induction nodes as [|n nodes IH]; intros st v Hd HL; simpl.
  - intros [= <-] Hv. eexists; split; [done|lia].
  - intros (st1 & Hstep & Hrest)%bind_Ok Hv.
    apply nonneg_durations_cons in Hd as [Hd1 Hd2].
    assert (HL1 : latency_within_measures oracle dag latency [n]).
    { intros node d ->%list_elem_of_singleton. apply HL, elem_of_cons. auto. }
    assert (HL2 : latency_within_measures oracle dag latency nodes).
    { intros node d Hin. apply HL, elem_of_cons. auto. }
    destruct (schedule_node_mono _ _ _ _ _ _ Hd1 HL1 Hstep Hv) as (v1 & Hv1 & Hle1).
    destruct (IH _ _ Hd2 HL2 Hrest Hv1) as (v' & Hv' & Hle').
    exists v'. split; [done|lia].
Qed.

(** C5: after a successful traversal, the circuit duration is the
    maximum of the final [idle_before] clocks over all qubits and clbits
    (it is the clock of one of them and bounds every one), and the stored
    start time of every node is the circuit duration minus the [t1]
    recorded for that node in the backward pass. *)
Theorem C5_finalizer (ps ps' : PropertySet) :
  run oracle dag ps = (Ok tt, ps') ->
  exists (backward_end : gmap nat Z) (idle : gmap Bit Z) (cd : Z) (start : gmap nat Z),
    schedule_nodes oracle dag (default 0 (clbit_write_latency ps))
      (reverse (topological_op_nodes dag)) (∅, init_idle dag) = Ok (backward_end, idle) /\
    circuit_duration idle = Ok cd /\
    (exists b, idle !! b = Some cd) /\
    (forall b v, idle !! b = Some v -> v <= cd) /\
    node_start_time ps' = Some start /\
    (forall node, node ∈ topological_op_nodes dag ->
       exists t1, backward_end !! node_id node = Some t1 /\
                  start !! node_id node = Some (cd - t1)) /\
    (forall id s, start !! id = Some s ->
       exists t1, backward_end !! id = Some t1 /\ s = cd - t1).
Proof.
  intros (_ & _ & [nst idle] & cd & Hloop & Hcd & ->)%run_Ok.
  exists nst, idle, cd, ((fun t1 => cd - t1) <$> nst). simpl in *.
  destruct (circuit_duration_Ok _ _ Hcd) as [Hreach Hub].
  split_and!; try done.
  - intros node Hin.
    destruct (schedule_nodes_visited _ _ _ _ _ _ node Hloop) as [t1 Ht1].
    { by apply elem_of_reverse. }
    exists t1. simpl in Ht1. by rewrite lookup_fmap, Ht1.
  - intros id s. rewrite lookup_fmap.
    destruct (nst !! id) as [t1|]; [|discriminate].
    intros [= <-]. eauto.
Qed.


Lemma schedule_node_timeline_inv (latency : Z) (st st' : sched_state) (node : DAGOpNode) :
  nonneg_durations oracle dag [node] ->
  qargs node <> [] ->
  schedule_node oracle dag latency st node = Ok st' ->
  timeline_inv st -> timeline_inv st'.
Proof.
  intros Hd Hq Hstep [Hpos Hent].
  pose proof (schedule_node_inv _ _ _ _ _ _ Hstep)
    as (d & t0 & Ho & Hnst & Hin & Hout & _ & _).
  assert (0 <= d) by (eapply Hd; [apply list_elem_of_singleton|]; done).
  assert (Hnew : forall q, q ∈ qargs node ->
            snd st' !! Qubit q = Some (t0 + d) /\ 0 <= t0 + d).
  { intros q Hqin. destruct (Hin q Hqin) as (Hlk & v0 & Hv0 & Hle).
    split; [done|]. specialize (Hpos _ _ Hv0). lia. }
  split.
  - intros q v Hv. destruct (decide (q ∈ qargs node)) as [Hqin|Hqin].
    + destruct (Hnew q Hqin) as [Hlk ?]. simplify_eq. done.
    + rewrite (Hout q Hqin) in Hv. eauto.
  - intros id t1. rewrite Hnst.
    destruct (decide (node_id node = id)) as [<-|Hne].
    + rewrite lookup_insert_eq. intros [= <-].
      destruct (qargs node) as [|q qs] eqn:Hqs; [done|].
      destruct (Hnew q) as [Hlk ?]; [apply elem_of_cons; auto|].
      split; [done|]. exists q, (t0 + d). split; [done|lia].
    + rewrite lookup_insert_ne by done. intros Hold.
      destruct (Hent _ _ Hold) as (? & q & v & Hv & Hle).
      split; [done|].
      destruct (schedule_node_qubit_mono _ _ _ _ _ _ _ _ Hd Hstep Hv) as (v' & Hv' & Hle').
      exists q, v'. split; [done|lia].
Qed.

Lemma schedule_nodes_timeline_inv (latency : Z) (nodes : list DAGOpNode)
    (st st' : sched_state) :
  nonneg_durations oracle dag nodes ->
  (forall node, node ∈ nodes -> qargs node <> []) ->
  schedule_nodes oracle dag latency nodes st = Ok st' ->
  timeline_inv st -> timeline_inv st'.
Proof.
  revert st. induction nodes as [|n nodes IH]; intros st Hd Hq; simpl.
  - by intros [= <-].
  - intros (st1 & Hstep & Hrest)%bind_Ok Hinv.
    apply nonneg_durations_cons in Hd as [Hd1 Hd2].
    eapply IH; [done| |done|].
    + intros node Hin. apply Hq, elem_of_cons. auto.
    + eapply schedule_node_timeline_inv; [done| |done|done].
      apply Hq, elem_of_cons. auto.
Qed.

Lemma timeline_inv_init : timeline_inv (∅, init_idle dag).
Proof.
  split; simpl.
  - intros q v ->%init_idle_zero. done.
  - intros id t1. by rewrite lookup_empty.
Qed.



Lemma schedule_nodes_single (latency : Z) (node : DAGOpNode) (st st' : sched_state) :
  schedule_nodes oracle dag latency [node] st = Ok st' ->
  schedule_node oracle dag latency st node = Ok st'.
Proof. simpl. by intros (st1 & -> & [= <-])%bind_Ok. Qed.

Lemma lookup_two_split {A : Type} (l : list A) (i j : nat) (a b : A) :
  l !! j = Some b -> l !! i = Some a -> (j < i)%nat ->
  exists l1 l2 l3, l = l1 ++ b :: l2 ++ a :: l3.
Proof.
  intros Hj Hi Hlt.
  exists (take j l), (take (i - S j) (drop (S j) l)), (drop (S (i - S j)) (drop (S j) l)).
  rewrite <- (take_drop_middle l j b Hj) at 1. do 2 f_equal.
  symmetry. apply take_drop_middle.
  rewrite lookup_drop. rewrite <- Hi. f_equal. lia.
Qed.

(** C4: two nodes that share a qubit do not overlap and keep their order:
    when [B] precedes [A] in the topological order, [A] starts no earlier
    than [B] ends.  The durations are nonnegative and the nodes are
    pairwise distinct. *)
Theorem C4_precedence
    (ps ps' : PropertySet) (i j : nat) (A B : DAGOpNode) (q : nat) :
  nonneg_durations oracle dag (topological_op_nodes dag) ->
  NoDup (node_id <$> topological_op_nodes dag) ->
  topological_op_nodes dag !! j = Some B ->
  topological_op_nodes dag !! i = Some A ->
  (j < i)%nat ->
  q ∈ qargs A -> q ∈ qargs B ->
  run oracle dag ps = (Ok tt, ps') ->
  exists (start : gmap nat Z) (sA sB dB : Z),
    node_start_time ps' = Some start /\
    start !! node_id A = Some sA /\
    start !! node_id B = Some sB /\
    oracle B dag = Ok dB /\
    sB + dB <= sA.
Proof.
  intros Hd Hnd Hj Hi Hlt HqA HqB (_ & _ & st & cd & Hloop & _ & ->)%run_Ok.
  destruct (lookup_two_split _ _ _ _ _ Hj Hi Hlt) as (l1 & l2 & l3 & Heq).
  rewrite Heq in Hloop, Hnd, Hd. clear Heq Hj Hi Hlt.
  (* the identities of A and B are fresh for the rest *)
  rewrite fmap_app, fmap_cons, fmap_app, fmap_cons in Hnd.
  apply NoDup_app in Hnd as (_ & Hl1 & Hnd).
  apply NoDup_cons in Hnd as (HB & Hnd).
  apply NoDup_app in Hnd as (_ & Hl2 & _).
  assert (HA1 : node_id A ∉ node_id <$> reverse l1).
  { rewrite fmap_reverse, elem_of_reverse. intros Hin.
    apply (Hl1 _ Hin). rewrite elem_of_cons, elem_of_app, elem_of_cons. auto. }
  assert (HB1 : node_id B ∉ node_id <$> reverse l1).
  { rewrite fmap_reverse, elem_of_reverse. intros Hin.
    apply (Hl1 _ Hin). rewrite elem_of_cons. auto. }
  assert (HA2 : node_id A ∉ node_id <$> reverse l2).
  { rewrite fmap_reverse, elem_of_reverse. intros Hin.
    apply (Hl2 _ Hin). rewrite elem_of_cons. auto. }
  assert (HAB : node_id B <> node_id A).
  { intros Heq. apply HB. rewrite Heq, elem_of_app, elem_of_cons. auto. }
  assert (Hd2 : nonneg_durations oracle dag (reverse l2)).
  { intros n d Hn. rewrite elem_of_reverse in Hn. apply Hd.
    rewrite elem_of_app, elem_of_cons, elem_of_app. auto. }
  (* the traversal, cut at A and at B *)
  rewrite reverse_app, reverse_cons, reverse_app, reverse_cons in Hloop.
  apply schedule_nodes_app in Hloop as (st4 & Hloop & Hr1).
  apply schedule_nodes_app in Hloop as (st3 & Hloop & HsB%schedule_nodes_single).
  apply schedule_nodes_app in Hloop as (st2 & Hloop & Hr2).
  apply schedule_nodes_app in Hloop as (st1 & _ & HsA%schedule_nodes_single).
  apply schedule_node_inv in HsA as (dA & t0A & _ & HnstA & HinA & _).
  destruct (HinA q HqA) as [HqA2 _].
  destruct (schedule_nodes_qubit_mono _ _ _ _ _ _ _ _ Hd2 Hr2 HqA2) as (v & Hv & Hle).
  apply schedule_node_inv in HsB as (dB & t0B & HoB & HnstB & HinB & _).
  destruct (HinB q HqB) as (_ & v0 & Hv0 & Hle0). simplify_eq.
  assert (HlkA : fst st !! node_id A = Some (t0A + dA)).
  { rewrite (schedule_nodes_other_id _ _ _ _ _ _ _ Hr1 HA1), HnstB.
    rewrite lookup_insert_ne by done.
    rewrite (schedule_nodes_other_id _ _ _ _ _ _ _ Hr2 HA2), HnstA.
    apply lookup_insert_eq. }
  assert (HlkB : fst st !! node_id B = Some (t0B + dB)).
  { rewrite (schedule_nodes_other_id _ _ _ _ _ _ _ Hr1 HB1), HnstB.
    apply lookup_insert_eq. }
  exists ((fun t1 => cd - t1) <$> fst st), (cd - (t0A + dA)), (cd - (t0B + dB)), dB.
  rewrite !lookup_fmap, HlkA, HlkB. split_and!; try done. lia.
Qed.

(** ** Errors *)

(** The register check passes exactly for one register that is named
    ["q"]. *)
Lemma not_physical_false_iff :
  not_physical dag = false <->
  size (qregs dag) = 1%nat /\ is_Some (qregs dag !! "q").
Proof.
  unfold not_physical. rewrite orb_false_iff, negb_false_iff, Nat.eqb_eq.
  rewrite bool_decide_eq_false, <- not_eq_None_Some. done.
Qed.


Lemma schedule_nodes_app_eq (latency : Z) (l1 l2 : list DAGOpNode) (st : sched_state) :
  schedule_nodes oracle dag latency (l1 ++ l2) st
  = bind (schedule_nodes oracle dag latency l1 st)
         (schedule_nodes oracle dag latency l2).
Proof.
  revert st. induction l1 as [|n l1 IH]; intros st; simpl; [done|].
  destruct (schedule_node oracle dag latency st n); simpl; [apply IH|done].
Qed.

(** C9: when the traversal reaches a node whose duration the oracle
    cannot give, [run] raises the oracle's error and stores nothing: the
    property set, its ["node_start_time"] entry included, is the one
    [run] was given. *)
Theorem C9_duration_unavailable
    (ps : PropertySet) (pre post : list DAGOpNode) (node : DAGOpNode)
    (st : sched_state) (e : exn) :
  not_physical dag = false ->
  time_unit ps <> Some "stretch" ->
  reverse (topological_op_nodes dag) = pre ++ node :: post ->
  schedule_nodes oracle dag (default 0 (clbit_write_latency ps)) pre
    (∅, init_idle dag) = Ok st ->
  oracle node dag = Raise e ->
  run oracle dag ps = (Raise e, ps) /\
  node_start_time (snd (run oracle dag ps)) = node_start_time ps.
Proof.
  intros Hphys Hunit Hnodes Hpre Hfail.
  assert (Hrun : run oracle dag ps = (Raise e, ps)).
  { unfold run. rewrite Hphys, bool_decide_eq_false_2 by done.
    unfold alap_start_times.
    rewrite Hnodes, schedule_nodes_app_eq, Hpre. simpl.
    unfold schedule_node. by rewrite Hfail. }
  by rewrite Hrun.
Qed.

(** C10: a circuit on exactly one register fails with the mapping error
    when that register is not named ["q"]. *)
Theorem C10_single_register_not_q
    (ps : PropertySet) (name : string) (reg : QuantumRegister) :
  qregs dag = {[ name := reg ]} ->
  name <> "q" ->
  size (qregs dag) = 1%nat /\
  run oracle dag ps = (Raise MappingError, ps).
Proof.
  intros Hregs Hname.
  assert (Hsize : size (qregs dag) = 1%nat) by (rewrite Hregs; apply map_size_singleton).
  split; [done|].
  unfold run, not_physical.
  rewrite Hregs, lookup_singleton_ne by done.
  rewrite bool_decide_eq_true_2 by done. by rewrite orb_true_r.
Qed.

End Results.

(** ** The pass returns on well-formed circuits *)

Section Totality.

Variable oracle : DAGOpNode -> DAGCircuit -> result Z.
Variable dag : DAGCircuit.

Lemma lookup_all_total (idle : gmap Bit Z) (bits : list Bit) :
  (forall b, b ∈ bits -> is_Some (idle !! b)) ->
  exists vs, lookup_all idle bits = Ok vs /\ length vs = length bits.
Proof.
  induction bits as [|b bits IH]; intros Hkeys; simpl; [by exists []|].
  destruct (Hkeys b) as [v ->]; [apply elem_of_cons; auto|].
  destruct IH as (vs & -> & Hlen).
  { intros b' Hb'. apply Hkeys, elem_of_cons. auto. }
  exists (v :: vs). simpl. by rewrite Hlen.
Qed.

Lemma max_idle_total (idle : gmap Bit Z) (bits : list Bit) :
  bits <> [] ->
  (forall b, b ∈ bits -> is_Some (idle !! b)) ->
  exists t, max_idle idle bits = Ok t.
Proof.
  intros Hne Hkeys. unfold max_idle.
  destruct (lookup_all_total idle bits Hkeys) as (vs & -> & Hlen). simpl.
  apply py_max_nonempty. intros ->. destruct bits; [done|discriminate].
Qed.

Lemma schedule_node_total (latency : Z) (st : sched_state) (node : DAGOpNode) (d : Z) :
  oracle node dag = Ok d ->
  read_bits node <> [] ->
  (forall b, b ∈ read_bits node -> is_Some (snd st !! b)) ->
  exists st', schedule_node oracle dag latency st node = Ok st'.
Proof.
  intros Ho Hne Hkeys. unfold schedule_node, node_interval. rewrite Ho. simpl.
  destruct (max_idle_total (snd st) (read_bits node) Hne Hkeys) as (t0 & Ht0).
  unfold read_bits in Ht0. destruct (op node); rewrite Ht0; simpl; eauto.
Qed.

Lemma schedule_node_keys (latency : Z) (st st' : sched_state) (node : DAGOpNode) (b : Bit) :
  schedule_node oracle dag latency st node = Ok st' ->
  is_Some (snd st !! b) -> is_Some (snd st' !! b).
Proof.
  intros (d & t0 & _ & _ & Hin & Hout & Hc & _)%schedule_node_inv Hb.
  destruct b as [q|c].
  - destruct (decide (q ∈ qargs node)) as [Hq|Hq].
    + destruct (Hin q Hq) as [-> _]. eauto.
    + by rewrite (Hout q Hq).
  - destruct (Hc c) as [->|(_ & _ & -> & _)]; eauto.
Qed.

Lemma schedule_nodes_total (latency : Z) (nodes : list DAGOpNode) (st : sched_state) :
  (forall node, node ∈ nodes -> exists d, oracle node dag = Ok d) ->
  (forall node, node ∈ nodes ->
     read_bits node <> [] /\ forall b, b ∈ read_bits node -> is_Some (snd st !! b)) ->
  exists st', schedule_nodes oracle dag latency nodes st = Ok st' /\
              forall b, is_Some (snd st !! b) -> is_Some (snd st' !! b).
Proof.
  revert st. induction nodes as [|n nodes IH]; intros st Ho Hwf; simpl; [eauto|].
  destruct (Ho n) as [d Hd]; [apply elem_of_cons; auto|].
  destruct (Hwf n) as [Hne Hkeys]; [apply elem_of_cons; auto|].
  destruct (schedule_node_total latency st n d Hd Hne Hkeys) as (st1 & Hstep).
  rewrite Hstep. simpl.
  destruct (IH st1) as (st' & Hrest & Hkeys').
  - intros node Hin. apply Ho, elem_of_cons. auto.
  - intros node Hin. destruct (Hwf node) as [Hne' Hk]; [apply elem_of_cons; auto|].
    split; [done|]. intros b Hb. eapply schedule_node_keys; eauto.
  - exists st'. split; [done|].
    intros b Hb. apply Hkeys'. eapply schedule_node_keys; eauto.
Qed.

Lemma init_idle_keys (b : Bit) : b ∈ dag_bits dag -> is_Some (init_idle dag !! b).
Proof.
  intros Hb. unfold init_idle.
  destruct (list_to_map _ !! b) as [v|] eqn:Hlk; [eauto|].
  apply not_elem_of_list_to_map_2 in Hlk. exfalso. apply Hlk.
  rewrite <- list_fmap_compose. apply list_elem_of_fmap. by exists b.
Qed.

(** On a physical circuit with a fixed time unit, at least one bit,
    well-formed nodes and known durations, [run] returns and stores the
    start times. *)
Lemma run_total (ps : PropertySet) :
  not_physical dag = false ->
  time_unit ps <> Some "stretch" ->
  dag_bits dag <> [] ->
  (forall node, node ∈ topological_op_nodes dag ->
     well_formed_node dag node /\ exists d, oracle node dag = Ok d) ->
  exists m, run oracle dag ps = (Ok tt, set_node_start_time m ps).
Proof.
  intros Hphys Hunit Hbits Hnodes.
  destruct (schedule_nodes_total (default 0 (clbit_write_latency ps))
              (reverse (topological_op_nodes dag)) (∅, init_idle dag))
    as (st & Hloop & Hkeys).
  { intros node Hin. rewrite elem_of_reverse in Hin. by apply Hnodes. }
  { intros node Hin. rewrite elem_of_reverse in Hin.
    destruct (Hnodes node Hin) as [[Hne Hin'] _]. split; [done|].
    intros b Hb. simpl. by apply init_idle_keys, Hin'. }
  assert (Hcd : exists cd, circuit_duration (snd st) = Ok cd).
  { apply py_max_nonempty.
    destruct (dag_bits dag) as [|b bs] eqn:Hdb; [done|].
    destruct (Hkeys b) as [v Hv].
    { simpl. apply init_idle_keys. rewrite Hdb. apply elem_of_cons. auto. }
    apply elem_of_map_to_list in Hv. intros Hnil.
    apply (list_elem_of_fmap_2 snd) in Hv. rewrite Hnil in Hv.
    by apply elem_of_nil in Hv. }
  destruct Hcd as (cd & Hcd).
  exists ((fun t1 => cd - t1) <$> fst st).
  unfold run, alap_start_times.
  rewrite Hphys, bool_decide_eq_false_2 by done.
  rewrite Hloop. simpl. by rewrite Hcd.
Qed.

End Totality.

(** ** The claims at concrete circuits *)

(** C1, as stated, fails: a standard instruction of duration 5 on qubit 0
    and clbit 0, scheduled on fresh clocks, gets [t1 = 5] and leaves the
    clock of its clbit at [0]. *)
Lemma C1_counterexample :
  op node_std = Standard /\
  (0%nat ∈ cargs node_std) /\
  schedule_node (table_duration [5]) dag_std 0 (∅, init_idle dag_std) node_std
    = Ok st_std /\
  fst st_std !! node_id node_std = Some 5 /\
  snd st_std !! Clbit 0 = Some 0 /\
  snd st_std !! Clbit 0 <> Some 5.
Proof. split_and!; [done|apply elem_of_cons; by left|eval_eq|eval_eq|eval_eq|]. by vm_compute. Qed.

Lemma C1_witness :
  (op node_std = Standard \/ op node_std = Directive) /\
  schedule_node (table_duration [5]) dag_std 0 (∅, idle_0) node_std = Ok st_std /\
  exists d t0,
    table_duration [5] node_std dag_std = Ok d /\
    is_max_over idle_0 (qarg_bits node_std ++ carg_bits node_std) t0 /\
    fst st_std = <[node_id node_std := t0 + d]> ∅ /\
    (forall q, q ∈ qargs node_std -> snd st_std !! Qubit q = Some (t0 + d)) /\
    (forall q, q ∉ qargs node_std -> snd st_std !! Qubit q = idle_0 !! Qubit q) /\
    (forall c, snd st_std !! Clbit c = idle_0 !! Clbit c).
Proof.
  split; [by left|]. split; [eval_eq|].
  apply (C1_default_updates_primary_only (table_duration [5]) dag_std 0
           ∅ idle_0 node_std st_std); [by left|eval_eq].
Defined.

Lemma C2_witness :
  op node_measure = Measurement /\
  schedule_node (table_duration [10]) dag_measure 4 (∅, idle_0) node_measure
    = Ok st_measure /\
  exists d t0,
    table_duration [10] node_measure dag_measure = Ok d /\
    is_max_over idle_0 (qarg_bits node_measure ++ carg_bits node_measure) t0 /\
    fst st_measure = <[node_id node_measure := t0 + d]> ∅ /\
    (forall c, c ∈ cargs node_measure ->
       snd st_measure !! Clbit c = Some (t0 + (d - 4))) /\
    (forall q, q ∈ qargs node_measure -> snd st_measure !! Qubit q = Some (t0 + d)) /\
    (forall q, q ∉ qargs node_measure ->
       snd st_measure !! Qubit q = idle_0 !! Qubit q) /\
    (forall c, c ∉ cargs node_measure ->
       snd st_measure !! Clbit c = idle_0 !! Clbit c).
Proof.
  split; [done|]. split; [eval_eq|].
  apply (C2_measurement_policy (table_duration [10]) dag_measure 4
           ∅ idle_0 node_measure st_measure); [done|eval_eq].
Defined.

Lemma C3_witness :
  op node_B = ConditionSupported /\
  schedule_node (table_duration [5]) dag_std 0 (∅, idle_0) node_B = Ok st_std /\
  exists d t0,
    table_duration [5] node_B dag_std = Ok d /\
    is_max_over idle_0 (qarg_bits node_B) t0 /\
    fst st_std = <[node_id node_B := t0 + d]> ∅ /\
    (forall q, q ∈ qargs node_B -> snd st_std !! Qubit q = Some (t0 + d)) /\
    (forall q, q ∉ qargs node_B -> snd st_std !! Qubit q = idle_0 !! Qubit q) /\
    (forall c, snd st_std !! Clbit c = idle_0 !! Clbit c) /\
    (forall idle2 : gmap Bit Z,
        (forall q, idle2 !! Qubit q = idle_0 !! Qubit q) ->
        exists idle2',
          schedule_node (table_duration [5]) dag_std 0 (∅, idle2) node_B
            = Ok (fst st_std, idle2') /\
          (forall q, idle2' !! Qubit q = snd st_std !! Qubit q) /\
          (forall c, idle2' !! Clbit c = idle2 !! Clbit c)).
Proof.
  split; [done|]. split; [eval_eq|].
  apply (C3_condition_supported_policy (table_duration [5]) dag_std 0
           ∅ idle_0 node_B st_std); [done|eval_eq].
Defined.

Lemma C4_witness :
  nonneg_durations (table_duration [5; 3]) dag_two_gates
    (topological_op_nodes dag_two_gates) /\
  NoDup (node_id <$> topological_op_nodes dag_two_gates) /\
  run (table_duration [5; 3]) dag_two_gates ps0
    = (Ok tt, set_node_start_time start_two_gates ps0) /\
  exists (start : gmap nat Z) (sA sB dB : Z),
    node_start_time (set_node_start_time start_two_gates ps0) = Some start /\
    start !! node_id node_A = Some sA /\
    start !! node_id node_B = Some sB /\
    table_duration [5; 3] node_B dag_two_gates = Ok dB /\
    sB + dB <= sA.
Proof.
  assert (Hd : nonneg_durations (table_duration [5; 3]) dag_two_gates
                 (topological_op_nodes dag_two_gates)) by nonneg_table.
  assert (Hnd : NoDup (node_id <$> topological_op_nodes dag_two_gates)).
  { apply (bool_decide_unpack _). vm_compute. exact I. }
  split_and!; [done|done|eval_eq|].
  apply (C4_precedence (table_duration [5; 3]) dag_two_gates ps0
           (set_node_start_time start_two_gates ps0) 1 0 node_A node_B 0%nat);
    [done|done|reflexivity|reflexivity|lia
    |apply elem_of_cons; by left|apply elem_of_cons; by left|eval_eq].
Defined.

Lemma C5_witness :
  run (table_duration [10]) dag_measure (ps_latency 4)
    = (Ok tt, set_node_start_time {[ 0%nat := 0 ]} (ps_latency 4)) /\
  exists (backward_end : gmap nat Z) (idle : gmap Bit Z) (cd : Z) (start : gmap nat Z),
    schedule_nodes (table_duration [10]) dag_measure
      (default 0 (clbit_write_latency (ps_latency 4)))
      (reverse (topological_op_nodes dag_measure)) (∅, init_idle dag_measure)
      = Ok (backward_end, idle) /\
    circuit_duration idle = Ok cd /\
    (exists b, idle !! b = Some cd) /\
    (forall b v, idle !! b = Some v -> v <= cd) /\
    node_start_time (set_node_start_time {[ 0%nat := 0 ]} (ps_latency 4)) = Some start /\
    (forall node, node ∈ topological_op_nodes dag_measure ->
       exists t1, backward_end !! node_id node = Some t1 /\
                  start !! node_id node = Some (cd - t1)) /\
    (forall id s, start !! id = Some s ->
       exists t1, backward_end !! id = Some t1 /\ s = cd - t1).
Proof.
  split; [eval_eq|].
  apply (C5_finalizer (table_duration [10]) dag_measure (ps_latency 4)
           (set_node_start_time {[ 0%nat := 0 ]} (ps_latency 4))).
  eval_eq.
Defined.

(** C6, as stated, fails: with the nonnegative write latency 5, a
    measurement of duration 1 on fresh clocks writes [0 + (1 - 5) = -4] to
    the clock of its clbit, which was [0]. *)
Lemma C6_counterexample :
  0 <= 5 /\
  nonneg_durations (table_duration [1]) dag_measure [node_measure] /\
  schedule_node (table_duration [1]) dag_measure 5 (∅, init_idle dag_measure) node_measure
    = Ok st_early_write /\
  init_idle dag_measure !! Clbit 0 = Some 0 /\
  snd st_early_write !! Clbit 0 = Some (-4) /\
  -4 < 0.
Proof. split_and!; [lia|nonneg_table|eval_eq|eval_eq|eval_eq|lia]. Qed.

Lemma C6_witness :
  nonneg_durations (table_duration [10]) dag_measure [node_measure] /\
  latency_within_measures (table_duration [10]) dag_measure 4 [node_measure] /\
  schedule_nodes (table_duration [10]) dag_measure 4 [node_measure] st_0
    = Ok st_measure /\
  snd st_0 !! Clbit 0 = Some 0 /\
  exists v', snd st_measure !! Clbit 0 = Some v' /\ 0 <= v'.
Proof.
  assert (Hd : nonneg_durations (table_duration [10]) dag_measure [node_measure])
    by nonneg_table.
  assert (HL : latency_within_measures (table_duration [10]) dag_measure 4 [node_measure]).
  { intros node d Hin _ Hd'. in_list Hin. vm_compute in Hd'. injection Hd' as <-. lia. }
  split_and!; [done|done|eval_eq|eval_eq|].
  apply (C6_idle_before_monotone (table_duration [10]) dag_measure 4
           [node_measure] st_0 st_measure (Clbit 0) 0); [done|done|eval_eq|eval_eq].
Defined.





Lemma C9_witness :
  not_physical dag_unknown_duration = false /\
  time_unit ps0 <> Some "stretch" /\
  reverse (topological_op_nodes dag_unknown_duration) = [node_known] ++ node_unknown :: [] /\
  schedule_nodes (table_duration [3]) dag_unknown_duration
    (default 0 (clbit_write_latency ps0)) [node_known]
    (∅, init_idle dag_unknown_duration) = Ok st_known /\
  table_duration [3] node_unknown dag_unknown_duration = Raise DurationUnavailable /\
  run (table_duration [3]) dag_unknown_duration ps0 = (Raise DurationUnavailable, ps0) /\
  node_start_time (snd (run (table_duration [3]) dag_unknown_duration ps0))
    = node_start_time ps0.
Proof.
  split_and!; [eval_eq|discriminate|eval_eq|eval_eq|eval_eq|..];
    apply (C9_duration_unavailable (table_duration [3]) dag_unknown_duration ps0
             [node_known] [] node_unknown st_known DurationUnavailable);
    solve [eval_eq|discriminate].
Defined.

Lemma C10_witness :
  qregs dag_reg_r = {[ "r" := mkQReg "r" 1 ]} /\
  "r" <> "q" /\
  size (qregs dag_reg_r) = 1%nat /\
  run (table_duration [5]) dag_reg_r ps0 = (Raise MappingError, ps0).
Proof.
  split; [reflexivity|]. split; [discriminate|].
  apply (C10_single_register_not_q (table_duration [5]) dag_reg_r ps0
           "r" (mkQReg "r" 1)); [reflexivity|discriminate].
Defined.

(** * Further properties of the pass *)

(** ** Errors raised inside the traversal *)

Section TraversalErrors.

Variable oracle : DAGOpNode -> DAGCircuit -> result Z.
Variable dag : DAGCircuit.

Lemma lookup_all_missing (idle : gmap Bit Z) (bits : list Bit) (b : Bit) :
  b ∈ bits -> idle !! b = None -> lookup_all idle bits = Raise KeyError.
Proof.
  induction bits as [|b' bits IH]; intros Hin Hb; simpl.
  - by apply elem_of_nil in Hin.
  - destruct (idle !! b') as [v|] eqn:Hb'; [|done].
    apply elem_of_cons in Hin as [->|Hin]; [congruence|].
    by rewrite IH.
Qed.

Lemma node_interval_reads (latency : Z) (node : DAGOpNode) (d : Z) (idle : gmap Bit Z) :
  node_interval latency node d idle
  = bind (max_idle idle (read_bits node))
      (fun t0 =>
         Ok (t0, t0 + d,
             match op node with
             | Measurement => advance (carg_bits node) (t0 + (d - latency)) idle
             | _ => idle
             end)).
Proof. unfold node_interval, read_bits. by destruct (op node). Qed.

Lemma schedule_node_missing_bit (latency : Z) (st : sched_state) (node : DAGOpNode)
    (d : Z) (b : Bit) :
  oracle node dag = Ok d ->
  b ∈ read_bits node -> snd st !! b = None ->
  schedule_node oracle dag latency st node = Raise KeyError.
Proof.
  intros Ho Hin Hb. unfold schedule_node. rewrite Ho. simpl.
  rewrite node_interval_reads. unfold max_idle.
  by rewrite (lookup_all_missing _ _ b).
Qed.

Lemma schedule_node_no_bits (latency : Z) (st : sched_state) (node : DAGOpNode) (d : Z) :
  oracle node dag = Ok d ->
  read_bits node = [] ->
  schedule_node oracle dag latency st node = Raise ValueError.
Proof.
  intros Ho Hnil. unfold schedule_node. rewrite Ho. simpl.
  rewrite node_interval_reads, Hnil. done.
Qed.

(** The keys of [idle_before] never change: a clock is written only after
    it was read. *)
Lemma schedule_node_keys_iff (latency : Z) (st st' : sched_state) (node : DAGOpNode)
    (b : Bit) :
  schedule_node oracle dag latency st node = Ok st' ->
  is_Some (snd st' !! b) <-> is_Some (snd st !! b).
Proof.
  intros Hstep. split; [|by eapply schedule_node_keys].
  apply schedule_node_inv in Hstep as (d & t0 & _ & _ & Hin & Hout & Hc & _).
  destruct b as [q|c].
  - destruct (decide (q ∈ qargs node)) as [Hq|Hq].
    + destruct (Hin q Hq) as (_ & v & -> & _). eauto.
    + by rewrite (Hout q Hq).
  - destruct (Hc c) as [->|(_ & _ & _ & v & -> & _)]; eauto.
Qed.

Lemma schedule_nodes_keys_iff (latency : Z) (nodes : list DAGOpNode)
    (st st' : sched_state) (b : Bit) :
  schedule_nodes oracle dag latency nodes st = Ok st' ->
  is_Some (snd st' !! b) <-> is_Some (snd st !! b).
Proof.
  revert st. induction nodes as [|n nodes IH]; intros st; simpl.
  - by intros [= <-].
  - intros (st1 & Hstep & Hrest)%bind_Ok.
    rewrite (IH _ Hrest). by eapply schedule_node_keys_iff.
Qed.

Lemma init_idle_keys_iff (b : Bit) :
  is_Some (init_idle dag !! b) <-> b ∈ dag_bits dag.
Proof.
  split; [|apply init_idle_keys].
  intros [v Hv]. unfold init_idle in Hv.
  apply elem_of_list_to_map_2, list_elem_of_fmap in Hv as (b' & [= <- _] & Hb').
  done.
Qed.

(** X3: however far the traversal has gone, the keys of [idle_before] are
    exactly the qubits and clbits of the circuit: no clock is created for
    another bit and none is removed. *)
Theorem idle_before_keys_are_circuit_bits
    (latency : Z) (nodes : list DAGOpNode) (st : sched_state) (b : Bit) :
  schedule_nodes oracle dag latency nodes (∅, init_idle dag) = Ok st ->
  is_Some (snd st !! b) <-> b ∈ dag_bits dag.
Proof.
  intros Hloop. rewrite (schedule_nodes_keys_iff _ _ _ _ _ Hloop). simpl.
  apply init_idle_keys_iff.
Qed.

Lemma run_at_failing_node (ps : PropertySet) (pre post : list DAGOpNode)
    (node : DAGOpNode) (st : sched_state) (e : exn) :
  not_physical dag = false ->
  time_unit ps <> Some "stretch" ->
  reverse (topological_op_nodes dag) = pre ++ node :: post ->
  schedule_nodes oracle dag (default 0 (clbit_write_latency ps)) pre
    (∅, init_idle dag) = Ok st ->
  schedule_node oracle dag (default 0 (clbit_write_latency ps)) st node = Raise e ->
  run oracle dag ps = (Raise e, ps).
Proof.
  intros Hphys Hunit Hnodes Hpre Hfail.
  unfold run. rewrite Hphys, bool_decide_eq_false_2 by done.
  unfold alap_start_times.
  rewrite Hnodes, schedule_nodes_app_eq, Hpre. simpl. by rewrite Hfail.
Qed.

(** X1: when the traversal reaches a node with a known duration that reads
    no bit (a gate or delay without qubits, or another instruction without
    qubits and clbits), [run] raises [ValueError] and stores nothing. *)
Theorem run_ValueError_on_node_without_bits
    (ps : PropertySet) (pre post : list DAGOpNode) (node : DAGOpNode)
    (st : sched_state) (d : Z) :
  not_physical dag = false ->
  time_unit ps <> Some "stretch" ->
  reverse (topological_op_nodes dag) = pre ++ node :: post ->
  schedule_nodes oracle dag (default 0 (clbit_write_latency ps)) pre
    (∅, init_idle dag) = Ok st ->
  oracle node dag = Ok d ->
  read_bits node = [] ->
  run oracle dag ps = (Raise ValueError, ps).
Proof.
  intros Hphys Hunit Hnodes Hpre Ho Hnil.
  eapply run_at_failing_node; [done|done|done|done|].
  by eapply schedule_node_no_bits.
Qed.

(** X2: when the traversal reaches a node with a known duration that reads
    a bit that is not a bit of the circuit, [run] raises [KeyError] and
    stores nothing. *)
Theorem run_KeyError_on_foreign_bit
    (ps : PropertySet) (pre post : list DAGOpNode) (node : DAGOpNode)
    (st : sched_state) (d : Z) (b : Bit) :
  not_physical dag = false ->
  time_unit ps <> Some "stretch" ->
  reverse (topological_op_nodes dag) = pre ++ node :: post ->
  schedule_nodes oracle dag (default 0 (clbit_write_latency ps)) pre
    (∅, init_idle dag) = Ok st ->
  oracle node dag = Ok d ->
  b ∈ read_bits node ->
  b ∉ dag_bits dag ->
  run oracle dag ps = (Raise KeyError, ps).
Proof.
  intros Hphys Hunit Hnodes Hpre Ho Hin Hforeign.
  eapply run_at_failing_node; [done|done|done|done|].
  eapply schedule_node_missing_bit; [done|done|].
  apply eq_None_not_Some. intros Hsome. apply Hforeign.
  apply init_idle_keys_iff.
  by rewrite <- (schedule_nodes_keys_iff _ _ _ _ _ Hpre).
Qed.

End TraversalErrors.

(** ** Edge cases and composition of [run] *)

Section RunProperties.

Variable oracle : DAGOpNode -> DAGCircuit -> result Z.
Variable dag : DAGCircuit.

Lemma init_idle_no_bits : dag_bits dag = [] -> init_idle dag = ∅.
Proof. unfold dag_bits, init_idle. by intros ->. Qed.

Lemma circuit_duration_defined (idle : gmap Bit Z) (b : Bit) :
  is_Some (idle !! b) -> exists cd, circuit_duration idle = Ok cd.
Proof.
  intros [v Hv]. apply py_max_nonempty. intros Hnil.
  apply elem_of_map_to_list, (list_elem_of_fmap_2 snd) in Hv.
  rewrite Hnil in Hv. by apply elem_of_nil in Hv.
Qed.

(** X4: on a circuit without operation nodes that has at least one bit,
    [run] succeeds and stores the empty dictionary. *)
Theorem run_on_circuit_without_nodes (ps : PropertySet) :
  not_physical dag = false ->
  time_unit ps <> Some "stretch" ->
  topological_op_nodes dag = [] ->
  dag_bits dag <> [] ->
  run oracle dag ps = (Ok tt, set_node_start_time ∅ ps).
Proof.
  intros Hphys Hunit Hnodes Hbits.
  unfold run, alap_start_times.
  rewrite Hphys, bool_decide_eq_false_2, Hnodes by done. simpl.
  destruct (dag_bits dag) as [|b bs] eqn:Hdb; [done|].
  destruct (circuit_duration_defined (init_idle dag) b) as [cd ->].
  { apply init_idle_keys. rewrite Hdb. apply elem_of_cons. auto. }
  simpl. by rewrite fmap_empty.
Qed.

(** X5: on a circuit without qubits and clbits [run] never succeeds: it
    raises and stores nothing; when the circuit has no operation node
    either, the error is the [ValueError] of the maximum over no clock. *)
Theorem run_raises_on_circuit_without_bits (ps : PropertySet) :
  not_physical dag = false ->
  time_unit ps <> Some "stretch" ->
  dag_bits dag = [] ->
  exists e, run oracle dag ps = (Raise e, ps) /\
            (topological_op_nodes dag = [] -> e = ValueError).
Proof.
  intros Hphys Hunit Hbits. unfold run, alap_start_times.
  rewrite Hphys, bool_decide_eq_false_2, (init_idle_no_bits Hbits) by done.
  destruct (reverse (topological_op_nodes dag)) as [|n rest] eqn:Hrev.
  - exists ValueError. split; [|done]. simpl.
    unfold circuit_duration. by rewrite map_to_list_empty.
  - simpl.
    destruct (schedule_node oracle dag _ (∅, ∅) n) as [st1|e] eqn:Hstep.
    + apply schedule_node_inv in Hstep as (d & t0 & _ & _ & _ & _ & _ & b & Hb).
      simpl in Hb. by rewrite lookup_empty in Hb.
    + exists e. split; [done|]. intros Hnil. rewrite Hnil in Hrev. discriminate.
Qed.

Lemma schedule_node_latency_irrelevant (L1 L2 : Z) (st : sched_state) (node : DAGOpNode) :
  op node <> Measurement ->
  schedule_node oracle dag L1 st node = schedule_node oracle dag L2 st node.
Proof.
  intros Hop. unfold schedule_node, node_interval.
  destruct (op node); done.
Qed.

Lemma schedule_nodes_latency_irrelevant (L1 L2 : Z) (nodes : list DAGOpNode)
    (st : sched_state) :
  (forall node, node ∈ nodes -> op node <> Measurement) ->
  schedule_nodes oracle dag L1 nodes st = schedule_nodes oracle dag L2 nodes st.
Proof.
  revert st. induction nodes as [|n nodes IH]; intros st Hops; simpl; [done|].
  rewrite (schedule_node_latency_irrelevant L1 L2) by (apply Hops, elem_of_cons; auto).
  destruct (schedule_node oracle dag L2 st n); simpl; [|done].
  apply IH. intros node Hin. apply Hops, elem_of_cons. auto.
Qed.

(** X6: the clbit write latency matters for measurements only: on a
    circuit without measurement, two property sets with the same time unit
    give the same outcome and the same stored start times, whatever their
    latencies. *)
Theorem run_latency_irrelevant_without_measurement (ps1 ps2 : PropertySet) :
  (forall node, node ∈ topological_op_nodes dag -> op node <> Measurement) ->
  time_unit ps1 = time_unit ps2 ->
  fst (run oracle dag ps1) = fst (run oracle dag ps2) /\
  (fst (run oracle dag ps1) = Ok tt ->
   node_start_time (snd (run oracle dag ps1))
   = node_start_time (snd (run oracle dag ps2))).
Proof.
  intros Hops Hunit. unfold run. rewrite Hunit.
  destruct (not_physical dag); [by split|].
  case_bool_decide; [by split|].
  unfold alap_start_times.
  rewrite (schedule_nodes_latency_irrelevant
             (default 0 (clbit_write_latency ps1))
             (default 0 (clbit_write_latency ps2))).
  - destruct (schedule_nodes _ _ _ _ _) as [st|e]; simpl; [|by split].
    destruct (circuit_duration (snd st)); simpl; by split.
  - intros node Hin. rewrite elem_of_reverse in Hin. by apply Hops.
Qed.

(** X7: the pass is idempotent: run again on the property set it
    produced, it succeeds and leaves that property set as it is. *)
Theorem run_idempotent (ps ps' : PropertySet) :
  run oracle dag ps = (Ok tt, ps') ->
  run oracle dag ps' = (Ok tt, ps').
Proof.
  unfold run. destruct (not_physical dag); [discriminate|].
  case_bool_decide as Hunit; [discriminate|].
  destruct (alap_start_times oracle dag (default 0 (clbit_write_latency ps)))
    as [m|e] eqn:Halap; [|discriminate].
  intros [= <-]. simpl.
  rewrite bool_decide_eq_false_2 by done. by rewrite Halap.
Qed.

(** X8: with nonnegative durations, the circuit duration of a circuit
    that has a qubit is nonnegative. *)
Theorem circuit_duration_nonneg
    (latency : Z) (nodes : list DAGOpNode) (st : sched_state) (cd : Z) (q : nat) :
  nonneg_durations oracle dag nodes ->
  q ∈ qubits dag ->
  schedule_nodes oracle dag latency nodes (∅, init_idle dag) = Ok st ->
  circuit_duration (snd st) = Ok cd ->
  0 <= cd.
Proof.
  intros Hd Hq Hloop Hcd.
  destruct (init_idle_keys dag (Qubit q)) as [v0 Hv0].
  { unfold dag_bits. apply elem_of_app. left. by apply list_elem_of_fmap_2. }
  pose proof (init_idle_zero _ _ _ Hv0) as ->.
  destruct (schedule_nodes_qubit_mono _ _ _ _ _ _ _ _ Hd Hloop Hv0) as (v & Hv & Hle).
  destruct (circuit_duration_Ok _ _ Hcd) as [_ Hub].
  specialize (Hub _ _ Hv). lia.
Qed.

(** X9: the stored dictionary has an entry for the nodes of the circuit
    and for nothing else. *)
Theorem node_start_time_keys (ps ps' : PropertySet) :
  run oracle dag ps = (Ok tt, ps') ->
  exists start : gmap nat Z,
    node_start_time ps' = Some start /\
    forall id, is_Some (start !! id) <-> id ∈ node_id <$> topological_op_nodes dag.
Proof.
  intros (_ & _ & st & cd & Hloop & _ & ->)%run_Ok.
  exists ((fun t1 => cd - t1) <$> fst st). split; [done|].
  intros id. rewrite lookup_fmap, fmap_is_Some. split.
  - intros Hsome.
    destruct (decide (id ∈ node_id <$> topological_op_nodes dag)) as [|Hnot]; [done|].
    rewrite (schedule_nodes_other_id _ _ _ _ _ _ id Hloop) in Hsome.
    + simpl in Hsome. rewrite lookup_empty in Hsome. by destruct Hsome.
    + by rewrite fmap_reverse, elem_of_reverse.
  - intros (node & -> & Hin)%list_elem_of_fmap.
    eapply schedule_nodes_visited; [done|]. by apply elem_of_reverse.
Qed.

End RunProperties.

(** ** Timing of the scheduled nodes *)

Section Timing.

Variable oracle : DAGOpNode -> DAGCircuit -> result Z.
Variable dag : DAGCircuit.

(** The iteration in one piece: [t0] is the maximum over the bits the node
    reads, and the clocks are written from it. *)
Lemma schedule_node_reads (latency : Z) (st st' : sched_state) (node : DAGOpNode) :
  schedule_node oracle dag latency st node = Ok st' ->
  exists d t0,
    oracle node dag = Ok d /\
    is_max_over (snd st) (read_bits node) t0 /\
    fst st' = <[node_id node := t0 + d]> (fst st) /\
    snd st' = advance (qarg_bits node) (t0 + d)
                (match op node with
                 | Measurement => advance (carg_bits node) (t0 + (d - latency)) (snd st)
                 | _ => snd st
                 end).
Proof.
  unfold schedule_node. intros (d & Hd & (iv & Hiv & [= <-])%bind_Ok)%bind_Ok.
  rewrite node_interval_reads in Hiv.
  apply bind_Ok in Hiv as (t0 & Ht0 & [= <-]). simpl.
  exists d, t0. split_and!; [done|by apply max_idle_Ok|done|done].
Qed.

(** A traversal cut at one of its nodes, whose entry of [node_start_time]
    survives when no later node has its identity. *)
Lemma schedule_nodes_cut (latency : Z) (pre post : list DAGOpNode) (node : DAGOpNode)
    (st0 st : sched_state) :
  schedule_nodes oracle dag latency (pre ++ node :: post) st0 = Ok st ->
  node_id node ∉ node_id <$> post ->
  exists st1 st2,
    schedule_nodes oracle dag latency pre st0 = Ok st1 /\
    schedule_node oracle dag latency st1 node = Ok st2 /\
    schedule_nodes oracle dag latency post st2 = Ok st /\
    fst st !! node_id node = fst st2 !! node_id node.
Proof.
  intros (st1 & Hpre & Hrest)%schedule_nodes_app Hfresh.
  simpl in Hrest. apply bind_Ok in Hrest as (st2 & Hstep & Hpost).
  exists st1, st2. split_and!; [done|done|done|].
  by eapply schedule_nodes_other_id.
Qed.

Lemma nonneg_durations_app (l1 l2 : list DAGOpNode) :
  nonneg_durations oracle dag (l1 ++ l2) ->
  nonneg_durations oracle dag l1 /\ nonneg_durations oracle dag l2.
Proof.
  intros H. split; intros node d Hin; apply H, elem_of_app; auto.
Qed.

(** X10: with nonnegative durations, pairwise distinct nodes and at least
    one qubit per node, every node starts at a nonnegative time and ends
    no later than the circuit duration. *)
Theorem nodes_end_within_circuit_duration (ps ps' : PropertySet) :
  nonneg_durations oracle dag (topological_op_nodes dag) ->
  (forall node, node ∈ topological_op_nodes dag -> qargs node <> []) ->
  NoDup (node_id <$> topological_op_nodes dag) ->
  run oracle dag ps = (Ok tt, ps') ->
  exists (st : sched_state) (cd : Z) (start : gmap nat Z),
    schedule_nodes oracle dag (default 0 (clbit_write_latency ps))
      (reverse (topological_op_nodes dag)) (∅, init_idle dag) = Ok st /\
    circuit_duration (snd st) = Ok cd /\
    node_start_time ps' = Some start /\
    forall node, node ∈ topological_op_nodes dag ->
      exists s d, start !! node_id node = Some s /\
                  oracle node dag = Ok d /\
                  0 <= s /\ s + d <= cd.
Proof.
  intros Hd Hq Hnd (_ & _ & st & cd & Hloop & Hcd & ->)%run_Ok.
  exists st, cd, ((fun t1 => cd - t1) <$> fst st).
  split_and!; [done|done|done|].
  intros node Hin.
  assert (Hdr : nonneg_durations oracle dag (reverse (topological_op_nodes dag))).
  { intros n d Hn. rewrite elem_of_reverse in Hn. by apply Hd. }
  assert (Hqr : forall n, n ∈ reverse (topological_op_nodes dag) -> qargs n <> []).
  { intros n Hn. rewrite elem_of_reverse in Hn. by apply Hq. }
  assert (Hndr : NoDup (node_id <$> reverse (topological_op_nodes dag))).
  { by rewrite fmap_reverse, reverse_Permutation. }
  apply elem_of_reverse, list_elem_of_split in Hin as (pre & post & Hsplit).
  rewrite Hsplit in Hloop, Hdr, Hqr, Hndr.
  rewrite fmap_app, fmap_cons in Hndr.
  apply NoDup_app in Hndr as (_ & _ & [Hfresh _]%NoDup_cons).
  destruct (schedule_nodes_cut _ _ _ _ _ _ Hloop Hfresh)
    as (st1 & st2 & Hpre & Hstep & Hpost & Hentry).
  apply nonneg_durations_app in Hdr as [Hd1 Hd2].
  assert (Hinv1 : timeline_inv st1).
  { eapply schedule_nodes_timeline_inv; [exact Hd1| |exact Hpre|apply timeline_inv_init].
    intros n Hn. apply Hqr, elem_of_app. auto. }
  assert (Hinv : timeline_inv st).
  { eapply schedule_nodes_timeline_inv; [| |exact Hloop|apply timeline_inv_init].
    - intros n d Hn. apply elem_of_app in Hn as [Hn|Hn]; [by eapply Hd1|by eapply Hd2].
    - done. }
  apply schedule_node_inv in Hstep as (d & t0 & Ho & Hnst & Hqs & _).
  rewrite Hnst, lookup_insert_eq in Hentry.
  assert (0 <= t0) as Ht0.
  { destruct (qargs node) as [|q qs] eqn:Hqn.
    - exfalso. eapply (Hqr node); [|done]. apply elem_of_app. right.
      apply elem_of_cons. auto.
    - destruct (Hqs q) as (_ & v & Hv & Hle); [apply elem_of_cons; auto|].
      destruct Hinv1 as [Hpos _]. specialize (Hpos _ _ Hv). lia. }
  destruct Hinv as [_ Hent].
  destruct (Hent _ _ Hentry) as (_ & q & v & Hv & Hle).
  destruct (circuit_duration_Ok _ _ Hcd) as [_ Hub]. specialize (Hub _ _ Hv).
  exists (cd - (t0 + d)), d. rewrite lookup_fmap, Hentry.
  split_and!; [done|done|lia|lia].
Qed.

End Timing.

(** ** Order on a shared clbit, and serial circuits *)

Section Ordering.

Variable oracle : DAGOpNode -> DAGCircuit -> result Z.
Variable dag : DAGCircuit.

Lemma schedule_nodes_mono (latency : Z) (nodes : list DAGOpNode) (st st' : sched_state)
    (b : Bit) (v : Z) :
  nonneg_durations oracle dag nodes ->
  latency_within_measures oracle dag latency nodes ->
  schedule_nodes oracle dag latency nodes st = Ok st' ->
  snd st !! b = Some v ->
  exists v', snd st' !! b = Some v' /\ v <= v'.
Proof.
  revert st v. induction nodes as [|n nodes IH]; intros st v Hd HL; simpl.
  - intros [= <-] Hv. exists v. split; [done|lia].
  - intros (st1 & Hstep & Hrest)%bind_Ok Hv.
    apply nonneg_durations_cons in Hd as [Hd1 Hd2].
    destruct (schedule_node_mono oracle dag latency st st1 n b v) as (v1 & Hv1 & Hle1);
      [done| |done|done|].
    { intros node d ->%list_elem_of_singleton. apply HL, elem_of_cons. auto. }
    destruct (IH st1 v1) as (v' & Hv' & Hle'); [done| |done|done|].
    { intros node d Hin. apply HL, elem_of_cons. auto. }
    exists v'. split; [done|lia].
Qed.

(** X11: the write latency on a shared clbit.  When a measurement [A]
    writes the clbit [c] and an earlier node [B] that is not a gate or
    delay has [c] among its clbits, [B] ends no later than the write
    latency after [A] starts.  The durations are nonnegative, the latency
    does not exceed the duration of a measurement, and the nodes are
    pairwise distinct. *)
Theorem measurement_clbit_order
    (ps ps' : PropertySet) (i j : nat) (A B : DAGOpNode) (c : nat) :
  nonneg_durations oracle dag (topological_op_nodes dag) ->
  latency_within_measures oracle dag (default 0 (clbit_write_latency ps))
    (topological_op_nodes dag) ->
  NoDup (node_id <$> topological_op_nodes dag) ->
  topological_op_nodes dag !! j = Some B ->
  topological_op_nodes dag !! i = Some A ->
  (j < i)%nat ->
  op A = Measurement -> c ∈ cargs A ->
  op B <> ConditionSupported -> c ∈ cargs B ->
  run oracle dag ps = (Ok tt, ps') ->
  exists (start : gmap nat Z) (sA sB dB : Z),
    node_start_time ps' = Some start /\
    start !! node_id A = Some sA /\
    start !! node_id B = Some sB /\
    oracle B dag = Ok dB /\
    sB + dB <= sA + default 0 (clbit_write_latency ps).
Proof.
  intros Hd HL Hnd Hj Hi Hlt HopA HcA HopB HcB
    (_ & _ & st & cd & Hloop & _ & ->)%run_Ok.
  set (L := default 0 (clbit_write_latency ps)) in *.
  destruct (lookup_two_split _ _ _ _ _ Hj Hi Hlt) as (l1 & l2 & l3 & Heq).
  rewrite Heq in Hloop, Hnd, Hd, HL. clear Heq Hj Hi Hlt.
  rewrite fmap_app, fmap_cons, fmap_app, fmap_cons in Hnd.
  apply NoDup_app in Hnd as (_ & Hl1 & Hnd).
  apply NoDup_cons in Hnd as (HB & Hnd).
  apply NoDup_app in Hnd as (_ & Hl2 & _).
  assert (HA1 : node_id A ∉ node_id <$> reverse l1).
  { rewrite fmap_reverse, elem_of_reverse. intros Hin.
    apply (Hl1 _ Hin). rewrite elem_of_cons, elem_of_app, elem_of_cons. auto. }
  assert (HB1 : node_id B ∉ node_id <$> reverse l1).
  { rewrite fmap_reverse, elem_of_reverse. intros Hin.
    apply (Hl1 _ Hin). rewrite elem_of_cons. auto. }
  assert (HA2 : node_id A ∉ node_id <$> reverse l2).
  { rewrite fmap_reverse, elem_of_reverse. intros Hin.
    apply (Hl2 _ Hin). rewrite elem_of_cons. auto. }
  assert (HAB : node_id B <> node_id A).
  { intros Heq. apply HB. rewrite Heq, elem_of_app, elem_of_cons. auto. }
  assert (Hd2 : nonneg_durations oracle dag (reverse l2)).
  { intros n d Hn. rewrite elem_of_reverse in Hn. apply Hd.
    rewrite elem_of_app, elem_of_cons, elem_of_app. auto. }
  assert (HL2 : latency_within_measures oracle dag L (reverse l2)).
  { intros n d Hn. rewrite elem_of_reverse in Hn. apply HL.
    rewrite elem_of_app, elem_of_cons, elem_of_app. auto. }
  rewrite reverse_app, reverse_cons, reverse_app, reverse_cons in Hloop.
  apply schedule_nodes_app in Hloop as (st4 & Hloop & Hr1).
  apply schedule_nodes_app in Hloop as (st3 & Hloop & HsB%schedule_nodes_single).
  apply schedule_nodes_app in Hloop as (st2 & Hloop & Hr2).
  apply schedule_nodes_app in Hloop as (st1 & _ & HsA%schedule_nodes_single).
  (* the measurement writes the clbit *)
  apply schedule_node_reads in HsA as (dA & t0A & _ & _ & HnstA & HidleA).
  assert (HcA2 : snd st2 !! Clbit c = Some (t0A + (dA - L))).
  { rewrite HidleA, HopA.
    rewrite advance_lookup_notin by apply Clbit_not_in_qarg_bits.
    by apply advance_lookup_in, Clbit_elem_of_carg_bits. }
  destruct (schedule_nodes_mono _ _ _ _ _ _ Hd2 HL2 Hr2 HcA2) as (v & Hv & Hle).
  (* the earlier node reads it *)
  apply schedule_node_reads in HsB as (dB & t0B & HoB & [_ HubB] & HnstB & _).
  destruct (HubB (Clbit c)) as (v0 & Hv0 & Hle0).
  { unfold read_bits. destruct (op B); [|done|..];
      apply elem_of_app; right; by apply Clbit_elem_of_carg_bits. }
  simplify_eq.
  assert (HlkA : fst st !! node_id A = Some (t0A + dA)).
  { rewrite (schedule_nodes_other_id _ _ _ _ _ _ _ Hr1 HA1), HnstB.
    rewrite lookup_insert_ne by done.
    rewrite (schedule_nodes_other_id _ _ _ _ _ _ _ Hr2 HA2), HnstA.
    apply lookup_insert_eq. }
  assert (HlkB : fst st !! node_id B = Some (t0B + dB)).
  { rewrite (schedule_nodes_other_id _ _ _ _ _ _ _ Hr1 HB1), HnstB.
    apply lookup_insert_eq. }
  exists ((fun t1 => cd - t1) <$> fst st), (cd - (t0A + dA)), (cd - (t0B + dB)), dB.
  rewrite !lookup_fmap, HlkA, HlkB. split_and!; try done. simpl. lia.
Qed.

Lemma total_duration_app (ds1 ds2 : list Z) :
  total_duration (ds1 ++ ds2) = total_duration ds1 + total_duration ds2.
Proof.
  unfold total_duration. induction ds1 as [|d ds1 IH]; simpl; [done|].
  rewrite IH. lia.
Qed.

Lemma total_duration_reverse (ds : list Z) :
  total_duration (reverse ds) = total_duration ds.
Proof.
  induction ds as [|d ds IH]; [done|].
  rewrite reverse_cons, total_duration_app, IH. unfold total_duration. simpl. lia.
Qed.

Lemma total_duration_nonneg (ds : list Z) :
  Forall (fun d => 0 <= d) ds -> 0 <= total_duration ds.
Proof.
  unfold total_duration. induction 1 as [|d ds Hd _ IH]; simpl; lia.
Qed.

Lemma schedule_node_on_qubit (latency : Z) (st : sched_state) (node : DAGOpNode)
    (q : nat) (d v : Z) :
  on_qubit_with_duration oracle dag q node d ->
  snd st !! Qubit q = Some v ->
  schedule_node oracle dag latency st node
  = Ok (<[node_id node := v + d]> (fst st), <[Qubit q := v + d]> (snd st)).
Proof.
  intros (Ho & _ & Hq & Hc) Hv.
  unfold schedule_node. rewrite Ho. simpl.
  rewrite node_interval_reads.
  assert (Hread : read_bits node = [Qubit q]).
  { unfold read_bits, qarg_bits, carg_bits. rewrite Hq, Hc. by destruct (op node). }
  rewrite Hread. unfold max_idle. simpl. rewrite Hv. simpl.
  unfold qarg_bits, carg_bits. rewrite Hq, Hc. simpl.
  by destruct (op node).
Qed.

(** A run of nodes on the qubit [q] alone advances the clock of [q] by the
    sum of their durations and leaves the other clocks alone. *)
Lemma schedule_nodes_on_qubit (latency : Z) (q : nat) (nodes : list DAGOpNode)
    (ds : list Z) (st : sched_state) (v : Z) :
  Forall2 (on_qubit_with_duration oracle dag q) nodes ds ->
  snd st !! Qubit q = Some v ->
  exists st',
    schedule_nodes oracle dag latency nodes st = Ok st' /\
    snd st' !! Qubit q = Some (v + total_duration ds) /\
    (forall b, b <> Qubit q -> snd st' !! b = snd st !! b).
Proof.
  intros Hall. revert st v.
  induction Hall as [|n d nodes ds Hn _ IH]; intros st v Hv; simpl.
  - exists st. split_and!; [done| |done]. rewrite Hv. f_equal.
    unfold total_duration. simpl. lia.
  - rewrite (schedule_node_on_qubit latency st n q d v Hn Hv). simpl.
    destruct (IH (<[node_id n := v + d]> (fst st), <[Qubit q := v + d]> (snd st)) (v + d))
      as (st' & Hrest & Hclock & Hother).
    { simpl. apply lookup_insert_eq. }
    exists st'. split_and!; [done|..].
    + rewrite Hclock. f_equal. unfold total_duration. simpl. lia.
    + intros b Hb. rewrite (Hother b Hb). simpl. by apply lookup_insert_ne.
Qed.

(** X12: a serial circuit.  When every node acts on the same qubit [q]
    alone, with a known nonnegative duration, and the nodes are pairwise
    distinct, [run] succeeds and starts every node when the nodes before
    it in the topological order have ended: its start time is the sum of
    their durations. *)
Theorem serial_circuit_start_times (ps : PropertySet) (q : nat) (ds : list Z) :
  not_physical dag = false ->
  time_unit ps <> Some "stretch" ->
  q ∈ qubits dag ->
  Forall2 (on_qubit_with_duration oracle dag q) (topological_op_nodes dag) ds ->
  NoDup (node_id <$> topological_op_nodes dag) ->
  exists start : gmap nat Z,
    run oracle dag ps = (Ok tt, set_node_start_time start ps) /\
    forall i node, topological_op_nodes dag !! i = Some node ->
                   start !! node_id node = Some (total_duration (take i ds)).
Proof.
  intros Hphys Hunit Hq Hall Hnd.
  set (L := default 0 (clbit_write_latency ps)).
  assert (Hq0 : init_idle dag !! Qubit q = Some 0).
  { destruct (init_idle_keys dag (Qubit q)) as [v Hv].
    - unfold dag_bits. apply elem_of_app. left. by apply list_elem_of_fmap_2.
    - by rewrite (init_idle_zero _ _ _ Hv) in Hv. }
  (* the whole traversal *)
  destruct (schedule_nodes_on_qubit L q (reverse (topological_op_nodes dag))
              (reverse ds) (∅, init_idle dag) 0) as (st & Hloop & Hclock & Hother);
    [by apply Forall2_reverse|done|].
  rewrite total_duration_reverse, Z.add_0_l in Hclock. simpl in Hother.
  assert (Hpos : 0 <= total_duration ds).
  { apply total_duration_nonneg. apply Forall_forall. intros d Hin.
    apply list_elem_of_lookup in Hin as [k Hk].
    destruct (Forall2_lookup_r _ _ _ _ _ Hall Hk) as (n & _ & _ & Hd & _). done. }
  (* the circuit duration is the sum of all durations *)
  assert (Hcd : circuit_duration (snd st) = Ok (total_duration ds)).
  { destruct (circuit_duration_defined (snd st) (Qubit q)) as [cd Hcd]; [by eexists|].
    rewrite Hcd. f_equal.
    destruct (circuit_duration_Ok _ _ Hcd) as [(b & Hb) Hub].
    specialize (Hub _ _ Hclock).
    destruct (decide (b = Qubit q)) as [->|Hne]; [congruence|].
    rewrite (Hother b Hne) in Hb. apply init_idle_zero in Hb. lia. }
  exists ((fun t1 => total_duration ds - t1) <$> fst st). split.
  { unfold run, alap_start_times.
    rewrite Hphys, bool_decide_eq_false_2 by done.
    fold L. rewrite Hloop. simpl. by rewrite Hcd. }
  (* the entry of one node *)
  intros i node Hi.
  destruct (Forall2_lookup_l _ _ _ _ _ Hall Hi) as (d & Hdi & Hnode).
  pose proof (take_drop_middle _ _ _ Hi) as Hnodes.
  pose proof (take_drop_middle _ _ _ Hdi) as Hds.
  set (l1 := take i (topological_op_nodes dag)) in *.
  set (l2 := drop (S i) (topological_op_nodes dag)) in *.
  assert (Hall2 : Forall2 (on_qubit_with_duration oracle dag q)
                    (reverse l2) (reverse (drop (S i) ds))).
  { apply Forall2_reverse. by apply Forall2_drop. }
  rewrite <- Hnodes in Hloop, Hnd.
  rewrite fmap_app, fmap_cons in Hnd.
  apply NoDup_app in Hnd as (_ & Hl1 & _).
  assert (Hfresh : node_id node ∉ node_id <$> reverse l1).
  { rewrite fmap_reverse, elem_of_reverse. intros Hin.
    apply (Hl1 _ Hin). apply elem_of_cons. auto. }
  rewrite reverse_app, reverse_cons, <- (assoc_L (++)) in Hloop. simpl in Hloop.
  destruct (schedule_nodes_cut _ _ _ _ _ _ _ _ Hloop Hfresh)
    as (st1 & st2 & Hpre & Hstep & _ & Hentry).
  destruct (schedule_nodes_on_qubit L q _ _ (∅, init_idle dag) 0 Hall2 Hq0)
    as (st1' & Hpre' & Hclock1 & _).
  rewrite Hpre in Hpre'. injection Hpre' as <-.
  rewrite total_duration_reverse, Z.add_0_l in Hclock1.
  rewrite (schedule_node_on_qubit L st1 node q d _ Hnode Hclock1) in Hstep.
  injection Hstep as <-. simpl in Hentry. rewrite lookup_insert_eq in Hentry.
  rewrite lookup_fmap, Hentry. simpl. f_equal.
  rewrite <- Hds at 1. rewrite total_duration_app.
  unfold total_duration at 2. simpl. fold (total_duration (drop (S i) ds)). lia.
Qed.

End Ordering.

(** ** As late as possible *)

Section AsLateAsPossible.

Variable oracle : DAGOpNode -> DAGCircuit -> result Z.
Variable dag : DAGCircuit.

Lemma schedule_node_explained (latency : Z) (visited : list DAGOpNode)
    (st st' : sched_state) (node : DAGOpNode) :
  clocks_explained latency visited st ->
  node_id node ∉ node_id <$> visited ->
  schedule_node oracle dag latency st node = Ok st' ->
  clocks_explained latency (visited ++ [node]) st'.
Proof.
  intros Hexp Hfresh (d & t0 & _ & _ & Hnst & Hidle)%schedule_node_reads b v Hv.
  assert (Hentry : fst st' !! node_id node = Some (t0 + d)).
  { rewrite Hnst. apply lookup_insert_eq. }
  assert (Hself : node ∈ visited ++ [node]).
  { apply elem_of_app. right. by apply list_elem_of_singleton. }
  rewrite Hidle in Hv.
  destruct (decide (b ∈ qarg_bits node)) as [Hq|Hq].
  { rewrite advance_lookup_in in Hv by done. injection Hv as <-.
    apply list_elem_of_fmap in Hq as (q & -> & Hq).
    right. exists node, (t0 + d). split_and!; [done|done|]. left. eauto. }
  rewrite advance_lookup_notin in Hv by done.
  assert (Hold : snd st !! b = Some v ->
                 v = 0 \/ written_by latency st' (visited ++ [node]) b v).
  { intros Hb. destruct (Hexp b v Hb) as [->|(N & t1 & HN & Ht1 & Hcase)]; [by left|].
    right. exists N, t1. split_and!; [apply elem_of_app; auto| |done].
    rewrite Hnst, lookup_insert_ne; [done|].
    intros Heq. apply Hfresh. rewrite Heq. by apply list_elem_of_fmap_2. }
  destruct (op node) eqn:Hop; try by apply Hold.
  destruct (decide (b ∈ carg_bits node)) as [Hc|Hc].
  - rewrite advance_lookup_in in Hv by done. injection Hv as <-.
    apply list_elem_of_fmap in Hc as (c & -> & Hc).
    right. exists node, (t0 + d). split_and!; [done|done|].
    right. exists c. split_and!; [done|done|done|lia].
  - rewrite advance_lookup_notin in Hv by done. by apply Hold.
Qed.

Lemma schedule_nodes_explained (latency : Z) (nodes visited : list DAGOpNode)
    (st st' : sched_state) :
  clocks_explained latency visited st ->
  NoDup (node_id <$> (visited ++ nodes)) ->
  schedule_nodes oracle dag latency nodes st = Ok st' ->
  clocks_explained latency (visited ++ nodes) st'.
Proof.
  revert visited st. induction nodes as [|n nodes IH]; intros visited st Hexp Hnd; simpl.
  - intros [= <-]. by rewrite app_nil_r.
  - intros (st1 & Hstep & Hrest)%bind_Ok.
    replace (visited ++ n :: nodes) with ((visited ++ [n]) ++ nodes) in *
      by (by rewrite <- (assoc_L (++))).
    apply (IH (visited ++ [n]) st1); [|done|done].
    eapply schedule_node_explained; [done| |done].
    rewrite !fmap_app in Hnd. apply NoDup_app in Hnd as (Hnd & _ & _).
    apply NoDup_app in Hnd as (_ & Hdisj & _).
    intros Hin. apply (Hdisj _ Hin). simpl. apply list_elem_of_singleton. done.
Qed.

Lemma clocks_explained_init (latency : Z) :
  clocks_explained latency [] (∅, init_idle dag).
Proof. intros b v Hv. left. simpl in Hv. by eapply init_idle_zero. Qed.

(** X13: every node is scheduled as late as possible.  In the result of a
    run on pairwise distinct nodes, each node ends at the circuit
    duration, or exactly when a later node on one of its qubits starts, or
    exactly the write latency after the start of a later measurement into
    one of the clbits it reads. *)
Theorem nodes_are_as_late_as_possible
    (ps ps' : PropertySet) (l1 l2 : list DAGOpNode) (node : DAGOpNode) :
  NoDup (node_id <$> topological_op_nodes dag) ->
  topological_op_nodes dag = l1 ++ node :: l2 ->
  run oracle dag ps = (Ok tt, ps') ->
  exists (st : sched_state) (cd : Z) (start : gmap nat Z) (s d : Z),
    schedule_nodes oracle dag (default 0 (clbit_write_latency ps))
      (reverse (topological_op_nodes dag)) (∅, init_idle dag) = Ok st /\
    circuit_duration (snd st) = Ok cd /\
    node_start_time ps' = Some start /\
    start !! node_id node = Some s /\
    oracle node dag = Ok d /\
    (s + d = cd \/
     exists N sN,
       N ∈ l2 /\ start !! node_id N = Some sN /\
       ((exists q, q ∈ qargs node /\ q ∈ qargs N /\ s + d = sN) \/
        (exists c, Clbit c ∈ read_bits node /\ op N = Measurement /\ c ∈ cargs N /\
                   s + d = sN + default 0 (clbit_write_latency ps)))).
Proof.
  intros Hnd Heq (_ & _ & st & cd & Hloop & Hcd & ->)%run_Ok.
  set (L := default 0 (clbit_write_latency ps)) in *.
  assert (Hndr : NoDup (node_id <$> reverse (topological_op_nodes dag))).
  { by rewrite fmap_reverse, reverse_Permutation. }
  pose proof Hloop as Hloop0.
  rewrite Heq, reverse_app, reverse_cons, <- (assoc_L (++)) in Hloop, Hndr.
  simpl in Hloop, Hndr.
  assert (Hfresh : node_id node ∉ node_id <$> reverse l1).
  { rewrite fmap_app, fmap_cons in Hndr.
    by apply NoDup_app in Hndr as (_ & _ & [? _]%NoDup_cons). }
  destruct (schedule_nodes_cut _ _ _ _ _ _ _ _ Hloop Hfresh)
    as (st1 & st2 & Hpre & Hstep & Hpost & Hentry).
  (* the clocks the node reads were written by the nodes after it *)
  assert (Hexp : clocks_explained L (reverse l2) st1).
  { apply (schedule_nodes_explained L (reverse l2) [] (∅, init_idle dag) st1);
      [apply clocks_explained_init| |done].
    simpl. rewrite fmap_app in Hndr. by apply NoDup_app in Hndr as (? & _ & _). }
  assert (Hlater : forall N t1, N ∈ reverse l2 -> fst st1 !! node_id N = Some t1 ->
                                fst st !! node_id N = Some t1).
  { intros N t1 HN Ht1.
    assert (Hrest : schedule_nodes oracle dag L (node :: reverse l1) st1 = Ok st).
    { simpl. by rewrite Hstep. }
    rewrite (schedule_nodes_other_id _ _ _ _ _ _ _ Hrest); [done|].
    rewrite fmap_app in Hndr. apply NoDup_app in Hndr as (_ & Hdisj & _).
    apply Hdisj. by apply list_elem_of_fmap_2. }
  pose proof (schedule_node_reads _ _ _ _ _ _ Hstep)
    as (d & t0 & Ho & [(b & Hb & Ht0) _] & Hnst & _).
  rewrite Hnst, lookup_insert_eq in Hentry.
  exists st, cd, ((fun t1 => cd - t1) <$> fst st), (cd - (t0 + d)), d.
  rewrite lookup_fmap, Hentry.
  split_and!; [exact Hloop0|done|done|done|done|].
  destruct (Hexp b t0 Ht0) as [->|(N & t1 & HN & Ht1 & Hcase)]; [left; lia|].
  right. exists N, (cd - t1).
  split_and!; [by apply elem_of_reverse| |].
  { by rewrite lookup_fmap, (Hlater N t1 HN Ht1). }
  destruct Hcase as [(q & -> & HqN & ->)|(c & -> & HopN & HcN & ->)].
  - left. exists q. split_and!; [|done|lia].
    unfold read_bits in Hb.
    destruct (op node); try (apply elem_of_app in Hb
      as [Hb|Hb]; [|by apply Qubit_not_in_carg_bits in Hb]);
      by apply Qubit_elem_of_qarg_bits.
  - right. exists c. split_and!; [done|done|done|lia].
Qed.

End AsLateAsPossible.

(** ** The further properties at concrete circuits *)

Lemma run_ValueError_on_node_without_bits_witness :
  not_physical dag_node_no_bits = false /\
  time_unit ps0 <> Some "stretch" /\
  reverse (topological_op_nodes dag_node_no_bits) = [] ++ node_no_bits :: [] /\
  table_duration [5] node_no_bits dag_node_no_bits = Ok 5 /\
  read_bits node_no_bits = [] /\
  run (table_duration [5]) dag_node_no_bits ps0 = (Raise ValueError, ps0).
Proof.
  split_and!; [eval_eq|discriminate|eval_eq|eval_eq|eval_eq|].
  apply (run_ValueError_on_node_without_bits (table_duration [5]) dag_node_no_bits ps0
           [] [] node_no_bits (∅, init_idle dag_node_no_bits) 5);
    solve [eval_eq|discriminate].
Defined.

Lemma run_KeyError_on_foreign_bit_witness :
  not_physical dag_foreign_bit = false /\
  time_unit ps0 <> Some "stretch" /\
  reverse (topological_op_nodes dag_foreign_bit) = [] ++ node_foreign :: [] /\
  table_duration [5] node_foreign dag_foreign_bit = Ok 5 /\
  (Qubit 7 ∈ read_bits node_foreign) /\
  (Qubit 7 ∉ dag_bits dag_foreign_bit) /\
  run (table_duration [5]) dag_foreign_bit ps0 = (Raise KeyError, ps0).
Proof.
  assert (Hin : Qubit 7 ∈ read_bits node_foreign).
  { apply (bool_decide_unpack _). vm_compute. exact I. }
  assert (Hout : Qubit 7 ∉ dag_bits dag_foreign_bit).
  { apply (bool_decide_unpack _). vm_compute. exact I. }
  split_and!; [eval_eq|discriminate|eval_eq|eval_eq|done|done|].
  apply (run_KeyError_on_foreign_bit (table_duration [5]) dag_foreign_bit ps0
           [] [] node_foreign (∅, init_idle dag_foreign_bit) 5 (Qubit 7));
    solve [eval_eq|discriminate|done].
Defined.

Lemma idle_before_keys_are_circuit_bits_witness :
  schedule_nodes (table_duration [10]) dag_measure 4 [node_measure]
    (∅, init_idle dag_measure) = Ok st_measure /\
  (is_Some (snd st_measure !! Clbit 3) <-> Clbit 3 ∈ dag_bits dag_measure).
Proof.
  split; [eval_eq|].
  apply (idle_before_keys_are_circuit_bits (table_duration [10]) dag_measure 4
           [node_measure] st_measure (Clbit 3)).
  eval_eq.
Defined.

Lemma run_on_circuit_without_nodes_witness :
  not_physical dag_no_nodes = false /\
  time_unit ps0 <> Some "stretch" /\
  topological_op_nodes dag_no_nodes = [] /\
  dag_bits dag_no_nodes <> [] /\
  run (table_duration []) dag_no_nodes ps0 = (Ok tt, set_node_start_time ∅ ps0).
Proof.
  split_and!; [eval_eq|discriminate|reflexivity|discriminate|].
  apply (run_on_circuit_without_nodes (table_duration []) dag_no_nodes ps0);
    solve [eval_eq|discriminate].
Defined.

Lemma run_raises_on_circuit_without_bits_witness :
  not_physical dag_no_bits = false /\
  time_unit ps0 <> Some "stretch" /\
  dag_bits dag_no_bits = [] /\
  exists e, run (table_duration []) dag_no_bits ps0 = (Raise e, ps0) /\
            (topological_op_nodes dag_no_bits = [] -> e = ValueError).
Proof.
  split_and!; [eval_eq|discriminate|reflexivity|].
  apply (run_raises_on_circuit_without_bits (table_duration []) dag_no_bits ps0);
    solve [eval_eq|discriminate].
Defined.

Lemma run_latency_irrelevant_without_measurement_witness :
  (forall node, node ∈ topological_op_nodes dag_two_gates -> op node <> Measurement) /\
  time_unit ps0 = time_unit (ps_latency 4) /\
  fst (run (table_duration [5; 3]) dag_two_gates ps0)
  = fst (run (table_duration [5; 3]) dag_two_gates (ps_latency 4)) /\
  (fst (run (table_duration [5; 3]) dag_two_gates ps0) = Ok tt ->
   node_start_time (snd (run (table_duration [5; 3]) dag_two_gates ps0))
   = node_start_time (snd (run (table_duration [5; 3]) dag_two_gates (ps_latency 4)))).
Proof.
  assert (Hops : forall node, node ∈ topological_op_nodes dag_two_gates ->
                              op node <> Measurement).
  { intros node Hin. in_list Hin; discriminate. }
  split; [done|]. split; [reflexivity|].
  apply (run_latency_irrelevant_without_measurement (table_duration [5; 3])
           dag_two_gates ps0 (ps_latency 4)); [done|reflexivity].
Defined.

Lemma run_idempotent_witness :
  run (table_duration [10]) dag_measure (ps_latency 4)
    = (Ok tt, set_node_start_time {[ 0%nat := 0 ]} (ps_latency 4)) /\
  run (table_duration [10]) dag_measure
    (set_node_start_time {[ 0%nat := 0 ]} (ps_latency 4))
    = (Ok tt, set_node_start_time {[ 0%nat := 0 ]} (ps_latency 4)).
Proof.
  split; [eval_eq|].
  apply (run_idempotent (table_duration [10]) dag_measure (ps_latency 4)).
  eval_eq.
Defined.

Lemma circuit_duration_nonneg_witness :
  nonneg_durations (table_duration [5; 3]) dag_two_gates [node_A; node_B] /\
  (0%nat ∈ qubits dag_two_gates) /\
  schedule_nodes (table_duration [5; 3]) dag_two_gates 0 [node_A; node_B]
    (∅, init_idle dag_two_gates) = Ok st_two_gates /\
  circuit_duration (snd st_two_gates) = Ok 8 /\
  0 <= 8.
Proof.
  assert (Hd : nonneg_durations (table_duration [5; 3]) dag_two_gates [node_A; node_B])
    by nonneg_table.
  assert (Hq : 0%nat ∈ qubits dag_two_gates) by (apply elem_of_cons; by left).
  split_and!; [done|done|eval_eq|eval_eq|].
  apply (circuit_duration_nonneg (table_duration [5; 3]) dag_two_gates 0
           [node_A; node_B] st_two_gates 8 0%nat); [done|done|eval_eq|eval_eq].
Defined.

Lemma node_start_time_keys_witness :
  run (table_duration [5; 3]) dag_two_gates ps0
    = (Ok tt, set_node_start_time start_two_gates ps0) /\
  exists start : gmap nat Z,
    node_start_time (set_node_start_time start_two_gates ps0) = Some start /\
    forall id, is_Some (start !! id)
               <-> id ∈ node_id <$> topological_op_nodes dag_two_gates.
Proof.
  split; [eval_eq|].
  apply (node_start_time_keys (table_duration [5; 3]) dag_two_gates ps0
           (set_node_start_time start_two_gates ps0)).
  eval_eq.
Defined.

Lemma nodes_end_within_circuit_duration_witness :
  nonneg_durations (table_duration [5; 3]) dag_two_gates
    (topological_op_nodes dag_two_gates) /\
  (forall node, node ∈ topological_op_nodes dag_two_gates -> qargs node <> []) /\
  NoDup (node_id <$> topological_op_nodes dag_two_gates) /\
  run (table_duration [5; 3]) dag_two_gates ps0
    = (Ok tt, set_node_start_time start_two_gates ps0) /\
  exists (st : sched_state) (cd : Z) (start : gmap nat Z),
    schedule_nodes (table_duration [5; 3]) dag_two_gates
      (default 0 (clbit_write_latency ps0))
      (reverse (topological_op_nodes dag_two_gates)) (∅, init_idle dag_two_gates)
      = Ok st /\
    circuit_duration (snd st) = Ok cd /\
    node_start_time (set_node_start_time start_two_gates ps0) = Some start /\
    forall node, node ∈ topological_op_nodes dag_two_gates ->
      exists s d, start !! node_id node = Some s /\
                  table_duration [5; 3] node dag_two_gates = Ok d /\
                  0 <= s /\ s + d <= cd.
Proof.
  assert (Hd : nonneg_durations (table_duration [5; 3]) dag_two_gates
                 (topological_op_nodes dag_two_gates)) by nonneg_table.
  assert (Hq : forall node, node ∈ topological_op_nodes dag_two_gates -> qargs node <> []).
  { intros node Hin. in_list Hin; discriminate. }
  assert (Hnd : NoDup (node_id <$> topological_op_nodes dag_two_gates)).
  { apply (bool_decide_unpack _). vm_compute. exact I. }
  split_and!; [done|done|done|eval_eq|].
  apply (nodes_end_within_circuit_duration (table_duration [5; 3]) dag_two_gates ps0
           (set_node_start_time start_two_gates ps0)); [done|done|done|eval_eq].
Defined.

Lemma measurement_clbit_order_witness :
  nonneg_durations (table_duration [10; 10]) dag_two_measures
    (topological_op_nodes dag_two_measures) /\
  latency_within_measures (table_duration [10; 10]) dag_two_measures
    (default 0 (clbit_write_latency (ps_latency 4)))
    (topological_op_nodes dag_two_measures) /\
  NoDup (node_id <$> topological_op_nodes dag_two_measures) /\
  run (table_duration [10; 10]) dag_two_measures (ps_latency 4)
    = (Ok tt, set_node_start_time start_two_measures (ps_latency 4)) /\
  exists (start : gmap nat Z) (sA sB dB : Z),
    node_start_time (set_node_start_time start_two_measures (ps_latency 4))
      = Some start /\
    start !! node_id node_M1 = Some sA /\
    start !! node_id node_M0 = Some sB /\
    table_duration [10; 10] node_M0 dag_two_measures = Ok dB /\
    sB + dB <= sA + default 0 (clbit_write_latency (ps_latency 4)).
Proof.
  assert (Hd : nonneg_durations (table_duration [10; 10]) dag_two_measures
                 (topological_op_nodes dag_two_measures)) by nonneg_table.
  assert (HL : latency_within_measures (table_duration [10; 10]) dag_two_measures
                 (default 0 (clbit_write_latency (ps_latency 4)))
                 (topological_op_nodes dag_two_measures)).
  { intros node d Hin _ Hd'. in_list Hin; vm_compute in Hd'; injection Hd' as <-;
      simpl; lia. }
  assert (Hnd : NoDup (node_id <$> topological_op_nodes dag_two_measures)).
  { apply (bool_decide_unpack _). vm_compute. exact I. }
  split_and!; [done|done|done|eval_eq|].
  apply (measurement_clbit_order (table_duration [10; 10]) dag_two_measures
           (ps_latency 4) (set_node_start_time start_two_measures (ps_latency 4))
           1 0 node_M1 node_M0 0%nat);
    [done|done|done|reflexivity|reflexivity|lia|reflexivity
    |apply elem_of_cons; by left|discriminate|apply elem_of_cons; by left|eval_eq].
Defined.

Lemma serial_circuit_start_times_witness :
  not_physical dag_two_gates = false /\
  time_unit ps0 <> Some "stretch" /\
  (0%nat ∈ qubits dag_two_gates) /\
  Forall2 (on_qubit_with_duration (table_duration [5; 3]) dag_two_gates 0)
    (topological_op_nodes dag_two_gates) [5; 3] /\
  NoDup (node_id <$> topological_op_nodes dag_two_gates) /\
  exists start : gmap nat Z,
    run (table_duration [5; 3]) dag_two_gates ps0
      = (Ok tt, set_node_start_time start ps0) /\
    forall i node, topological_op_nodes dag_two_gates !! i = Some node ->
                   start !! node_id node = Some (total_duration (take i [5; 3])).
Proof.
  assert (Hq : 0%nat ∈ qubits dag_two_gates) by (apply elem_of_cons; by left).
  assert (Hall : Forall2 (on_qubit_with_duration (table_duration [5; 3]) dag_two_gates 0)
                   (topological_op_nodes dag_two_gates) [5; 3]).
  { constructor; [by split_and!|]. constructor; [by split_and!|]. constructor. }
  assert (Hnd : NoDup (node_id <$> topological_op_nodes dag_two_gates)).
  { apply (bool_decide_unpack _). vm_compute. exact I. }
  split_and!; [eval_eq|discriminate|done|done|done|].
  apply (serial_circuit_start_times (table_duration [5; 3]) dag_two_gates ps0 0%nat
           [5; 3]); [eval_eq|discriminate|done|done|done].
Defined.

Lemma nodes_are_as_late_as_possible_witness :
  NoDup (node_id <$> topological_op_nodes dag_two_measures) /\
  topological_op_nodes dag_two_measures = [] ++ node_M0 :: [node_M1] /\
  run (table_duration [10; 10]) dag_two_measures (ps_latency 4)
    = (Ok tt, set_node_start_time start_two_measures (ps_latency 4)) /\
  exists (st : sched_state) (cd : Z) (start : gmap nat Z) (s d : Z),
    schedule_nodes (table_duration [10; 10]) dag_two_measures
      (default 0 (clbit_write_latency (ps_latency 4)))
      (reverse (topological_op_nodes dag_two_measures))
      (∅, init_idle dag_two_measures) = Ok st /\
    circuit_duration (snd st) = Ok cd /\
    node_start_time (set_node_start_time start_two_measures (ps_latency 4))
      = Some start /\
    start !! node_id node_M0 = Some s /\
    table_duration [10; 10] node_M0 dag_two_measures = Ok d /\
    (s + d = cd \/
     exists N sN,
       N ∈ [node_M1] /\ start !! node_id N = Some sN /\
       ((exists q, q ∈ qargs node_M0 /\ q ∈ qargs N /\ s + d = sN) \/
        (exists c, Clbit c ∈ read_bits node_M0 /\ op N = Measurement /\
                   c ∈ cargs N /\
                   s + d = sN + default 0 (clbit_write_latency (ps_latency 4))))).
Proof.
  assert (Hnd : NoDup (node_id <$> topological_op_nodes dag_two_measures)).
  { apply (bool_decide_unpack _). vm_compute. exact I. }
  split_and!; [done|reflexivity|eval_eq|].
  apply (nodes_are_as_late_as_possible (table_duration [10; 10]) dag_two_measures
           (ps_latency 4) (set_node_start_time start_two_measures (ps_latency 4))
           [] [node_M1] node_M0); [done|reflexivity|eval_eq].
Defined.
